(** * be-chat-app: the real-time conversation fan-out engine

    A shallow embedding of [src/lib/socket.ts] (the Socket.IO handlers
    registered by [initializeSocketServer]) and of [src/routes/chat.routes.ts]
    (the REST handlers), over the tables of [src/db/schema.ts].

    Modelling conventions.
    - Every handler is one atomic transition: the [await]s of a handler are
      not interleaved with other handlers.
    - The store is reachable and its rows respect the schema.  A statement
      fails where a handler hands the store what the schema refuses; this is
      modelled for the text given to [conversation:join] ([is_uuid]) and for
      the user ids given to [POST /conversations] (the foreign key on
      [user_id]).  Elsewhere the theorems are about ids of rows of the
      store.
    - Values the environment supplies are arguments of the handlers: the
      reading of the clock ([new Date()], [defaultNow()]) and the ids drawn
      by [defaultRandom()].
    - Ids are strings, compared as texts: an id is spelled as the store
      prints it.  The identity verifier yields a non-empty id, so the test
      [!userId] is the test for [None].
    - Socket.IO itself is not part of the repository; its addressing
      operators ([io.emit], [io.to(room).emit], [socket.to(room).emit],
      [socket.emit]) are modelled by [recipients] below. *)

From Stdlib Require Import ZArith Ascii String.
From stdpp Require Import base decidable option list strings gmap.

Local Open Scope string_scope.
Local Open Scope Z_scope.

(** ** Tables of [src/db/schema.ts] *)

Module Schema.

(** [messageStatusEnum]: 'sent', 'delivered', 'read'. *)
Inductive MessageStatus := sent | delivered | read.

#[global] Instance MessageStatus_eq_dec : EqDecision MessageStatus.
Proof. solve_decision. Defined.

(** Position of a status in the order sent < delivered < read. *)
Definition status_rank (s : MessageStatus) : nat :=
  match s with sent => 0 | delivered => 1 | read => 2 end.

Record User := mkUser {
  u_id : string;
  u_email : string;
  u_username : option string;
  u_avatarUrl : option string;
  u_isOnline : bool;
  u_lastSeen : option Z;
  u_createdAt : Z;
  u_updatedAt : Z
}.

Record Conversation := mkConversation {
  c_id : string;
  c_name : option string;
  c_isGroup : bool;
  c_createdAt : Z;
  c_updatedAt : Z
}.

Record ConversationParticipant := mkParticipant {
  p_id : string;
  p_conversationId : string;
  p_userId : string;
  p_joinedAt : Z;
  p_lastReadAt : option Z
}.

Record Message := mkMessage {
  m_id : string;
  m_conversationId : string;
  m_senderId : string;
  m_content : string;
  m_status : MessageStatus;
  m_isEdited : bool;
  m_createdAt : Z;
  m_updatedAt : Z
}.

#[global] Instance User_eq_dec : EqDecision User.
Proof. solve_decision. Defined.
#[global] Instance Conversation_eq_dec : EqDecision Conversation.
Proof. solve_decision. Defined.
#[global] Instance ConversationParticipant_eq_dec : EqDecision ConversationParticipant.
Proof. solve_decision. Defined.
#[global] Instance Message_eq_dec : EqDecision Message.
Proof. solve_decision. Defined.

(** The store: one list of rows per table, in insertion order. *)
Record Db := mkDb {
  users : list User;
  conversations : list Conversation;
  conversationParticipants : list ConversationParticipant;
  messages : list Message
}.

End Schema.
Export Schema.

(** ** The statements the handlers send to the store *)

Module Store.

(** [db.update(t).set(f).where(w)]: every row satisfying [w] is rewritten. *)
Definition update_where {A} (w : A → bool) (f : A → A) (rows : list A) : list A :=
  (λ r, if w r then f r else r) <$> rows.

(** The rows an [update ... .returning()] hands back. *)
Definition returning {A} (w : A → bool) (f : A → A) (rows : list A) : list A :=
  f <$> filter (λ r, w r = true) rows.

(** [db.delete(t).where(w)]. *)
Definition delete_where {A} (w : A → bool) (rows : list A) : list A :=
  filter (λ r, w r = false) rows.

Definition set_isOnline (b : bool) (now : Z) (u : User) : User :=
  mkUser (u_id u) (u_email u) (u_username u) (u_avatarUrl u) b (Some now)
         (u_createdAt u) (u_updatedAt u).

Definition set_c_updatedAt (now : Z) (c : Conversation) : Conversation :=
  mkConversation (c_id c) (c_name c) (c_isGroup c) (c_createdAt c) now.

Definition set_lastReadAt (now : Z) (p : ConversationParticipant) : ConversationParticipant :=
  mkParticipant (p_id p) (p_conversationId p) (p_userId p) (p_joinedAt p) (Some now).

Definition set_status (s : MessageStatus) (m : Message) : Message :=
  mkMessage (m_id m) (m_conversationId m) (m_senderId m) (m_content m) s
            (m_isEdited m) (m_createdAt m) (m_updatedAt m).

Definition set_edited (content : string) (now : Z) (m : Message) : Message :=
  mkMessage (m_id m) (m_conversationId m) (m_senderId m) content (m_status m)
            true (m_createdAt m) now.

Definition with_users (f : list User → list User) (d : Db) : Db :=
  mkDb (f (users d)) (conversations d) (conversationParticipants d) (messages d).
Definition with_conversations (f : list Conversation → list Conversation) (d : Db) : Db :=
  mkDb (users d) (f (conversations d)) (conversationParticipants d) (messages d).
Definition with_participants
    (f : list ConversationParticipant → list ConversationParticipant) (d : Db) : Db :=
  mkDb (users d) (conversations d) (f (conversationParticipants d)) (messages d).
Definition with_messages (f : list Message → list Message) (d : Db) : Db :=
  mkDb (users d) (conversations d) (conversationParticipants d) (f (messages d)).

(** [where: and(eq(conversationId, c), eq(userId, u))] on participants. *)
Definition is_row_of (c u : string) (p : ConversationParticipant) : bool :=
  bool_decide (p_conversationId p = c) && bool_decide (p_userId p = u).

(** [db.query.conversationParticipants.findFirst]. *)
Definition findParticipant (d : Db) (c u : string) : option ConversationParticipant :=
  List.find (is_row_of c u) (conversationParticipants d).

(** [db.query.conversationParticipants.findMany({where: eq(userId, u)})]. *)
Definition participantsOf (d : Db) (u : string) : list ConversationParticipant :=
  filter (λ p, p_userId p = u) (conversationParticipants d).

Definition has_id (mid : string) (m : Message) : bool := bool_decide (m_id m = mid).

(** [db.query.messages.findFirst({where: eq(messages.id, mid)})]. *)
Definition findMessage (d : Db) (mid : string) : option Message :=
  List.find (has_id mid) (messages d).

(** [db.query.users.findFirst({where: eq(users.id, u)})]. *)
Definition findUser (d : Db) (u : string) : option User :=
  List.find (λ r, bool_decide (u_id r = u)) (users d).

(** [db.query.conversations.findFirst({where: eq(conversations.id, c)})]
    as the store would answer it. *)
Definition findConversation (d : Db) (c : string) : option Conversation :=
  List.find (λ r, bool_decide (c_id r = c)) (conversations d).

(** A hexadecimal digit, in either case. *)
Definition is_hex (a : ascii) : bool :=
  let x := N_of_ascii a in
  ((48 <=? x) && (x <=? 57) || (65 <=? x) && (x <=? 70)
   || (97 <=? x) && (x <=? 102))%N.

(** [k] more bytes of a uuid, each of two hexadecimal digits, the byte at
    hand being the [i]-th; a hyphen may follow every second byte but the
    last.  The result is what is left of the text. *)
Fixpoint uuid_bytes (k i : nat) (s : string) : option string :=
  match k with
  | O => Some s
  | S k' =>
      match s with
      | String a (String b s') =>
          if is_hex a && is_hex b then
            uuid_bytes k' (S i)
              match s' with
              | String c s'' =>
                  if Ascii.eqb c "-" && Nat.odd i && (0 <? k')%nat then s'' else s'
              | EmptyString => s'
              end
          else None
      | _ => None
      end
  end.

(** Whether the [uuid] type of the store accepts the text (PostgreSQL's
    input routine for [uuid]: sixteen bytes in hexadecimal, optional
    hyphens after groups of four digits, optionally within braces).  A
    statement that hands the store any other text for a [uuid] column
    fails. *)
Definition is_uuid (s : string) : bool :=
  match s with
  | EmptyString => false
  | String a s' =>
      if Ascii.eqb a "{" then
        match uuid_bytes 16 0 s' with
        | Some (String c EmptyString) => Ascii.eqb c "}"
        | _ => false
        end
      else
        match uuid_bytes 16 0 s with
        | Some EmptyString => true
        | _ => false
        end
  end.

(** [db.insert(messages).values({conversationId, senderId, content})
    .returning()]: the columns left out take their defaults. *)
Definition new_message (mid c u content : string) (now : Z) : Message :=
  mkMessage mid c u content sent false now now.

(** [db.update(users).set({isOnline, lastSeen: new Date()}).where(eq(id, u))]. *)
Definition setPresence (u : string) (b : bool) (now : Z) : Db → Db :=
  with_users (update_where (λ r, bool_decide (u_id r = u)) (set_isOnline b now)).

End Store.
Export Store.

(** ** JavaScript's [String.prototype.trim]

    A content is the UTF-8 encoding of the JavaScript string.  [trim] takes
    off, at both ends, the characters of the WhiteSpace and LineTerminator
    productions of ECMAScript: the six of ASCII, U+00A0, U+1680, U+2000 to
    U+200A, U+2028, U+2029, U+202F, U+205F, U+3000 and U+FEFF. *)

Module Js.

(** The white space of one byte: TAB, LF, VT, FF, CR and SP. *)
Definition is_ws1 (a : ascii) : bool :=
  let x := N_of_ascii a in
  ((9 <=? x) && (x <=? 13) || (x =? 32))%N.

(** U+00A0, the only white space of two bytes: C2 A0. *)
Definition is_ws2 (a b : ascii) : bool :=
  ((N_of_ascii a =? 194) && (N_of_ascii b =? 160))%N.

(** The white space of three bytes: U+1680 (E1 9A 80), U+2000 to U+200A
    (E2 80 80 to E2 80 8A), U+2028, U+2029, U+202F (E2 80 A8, A9, AF),
    U+205F (E2 81 9F), U+3000 (E3 80 80) and U+FEFF (EF BB BF). *)
Definition is_ws3 (a b c : ascii) : bool :=
  let x := N_of_ascii a in
  let y := N_of_ascii b in
  let z := N_of_ascii c in
  ((x =? 225) && (y =? 154) && (z =? 128)
   || (x =? 226) && (y =? 128)
      && ((128 <=? z) && (z <=? 138) || (z =? 168) || (z =? 169) || (z =? 175))
   || (x =? 226) && (y =? 129) && (z =? 159)
   || (x =? 227) && (y =? 128) && (z =? 128)
   || (x =? 239) && (y =? 187) && (z =? 191))%N.

(** What follows the white-space character [s] starts with, if it starts
    with one. *)
Definition ws_head (s : string) : option string :=
  match s with
  | EmptyString => None
  | String a s1 =>
      if is_ws1 a then Some s1
      else match s1 with
           | EmptyString => None
           | String b s2 =>
               if is_ws2 a b then Some s2
               else match s2 with
                    | EmptyString => None
                    | String c s3 => if is_ws3 a b c then Some s3 else None
                    end
           end
  end.

Fixpoint trimStart (s : string) : string :=
  match s with
  | EmptyString => EmptyString
  | String a s1 =>
      if is_ws1 a then trimStart s1
      else match s1 with
           | EmptyString => s
           | String b s2 =>
               if is_ws2 a b then trimStart s2
               else match s2 with
                    | EmptyString => s
                    | String c s3 => if is_ws3 a b c then trimStart s3 else s
                    end
           end
  end.

(** [s] is made of white-space characters only. *)
Fixpoint all_ws (s : string) : bool :=
  match s with
  | EmptyString => true
  | String a s1 =>
      if is_ws1 a then all_ws s1
      else match s1 with
           | EmptyString => false
           | String b s2 =>
               if is_ws2 a b then all_ws s2
               else match s2 with
                    | EmptyString => false
                    | String c s3 => is_ws3 a b c && all_ws s3
                    end
           end
  end.

(** The shortest prefix of [s] that is followed by white space only. *)
Fixpoint trimEnd (s : string) : string :=
  match s with
  | EmptyString => EmptyString
  | String a s1 => if all_ws s then EmptyString else String a (trimEnd s1)
  end.

Definition trim (s : string) : string := trimEnd (trimStart s).

(** The string of the given bytes. *)
Definition of_bytes (l : list Z) : string :=
  foldr (λ n s, String (ascii_of_N (Z.to_N n)) s) EmptyString l.

(** [!content || content.trim() === ''] for a string [content]. *)
Definition blank (content : string) : bool := bool_decide (trim content = "").

(** [[...new Set(l)]]: the elements of [l] in order of first occurrence. *)
Fixpoint set_add_all (acc l : list string) : list string :=
  match l with
  | [] => acc
  | x :: l' => set_add_all (if decide (x ∈ acc) then acc else acc ++ [x]) l'
  end.

Definition spread_set (l : list string) : list string := set_add_all [] l.

End Js.
Export Js.

(** ** The connection registry kept by Socket.IO *)

Module Registry.

(** An [AuthenticatedSocket]: the user id attached by the handshake
    middleware and the rooms the handlers joined it to.  The room Socket.IO
    opens for every socket under the socket's own id is left out: no handler
    addresses it. *)
Record Socket := mkSocket {
  userId : option string;
  rooms : gset string
}.

(** The application state: the store and the live sockets by socket id. *)
Record State := mkState {
  db : Db;
  sockets : gmap string Socket
}.

(** The room name [`conversation:${conversationId}`]. *)
Definition room_of (conversationId : string) : string :=
  "conversation:" +:+ conversationId.

(** How a handler addresses an event. *)
Inductive Target :=
| ToAll                                   (* io.emit *)
| ToRoom (room : string)                  (* io.to(room).emit *)
| ToRoomExcept (room : string) (sk : string) (* socket.to(room).emit *)
| ToSocket (sk : string).                 (* socket.emit *)

(** The server-to-client events and their payloads. *)
Inductive Event :=
| user_online (userId : string)
| user_offline (userId : string)
| conversation_joined (conversationId : string)
| conversation_left (conversationId : string)
| message_new (message : Message) (sender : option User)
| conversation_update (conversationId : string) (lastMessage : Message)
                      (sender : option User)
| typing_update (conversationId : string) (userId : string) (isTyping : bool)
| message_status_update (messageId : string) (status : MessageStatus)
                        (updatedBy : string)
| error (message : string).

Record Emit := mkEmit { target : Target; event : Event }.

#[global] Instance Target_eq_dec : EqDecision Target.
Proof. solve_decision. Defined.
#[global] Instance Event_eq_dec : EqDecision Event.
Proof. solve_decision. Defined.
#[global] Instance Emit_eq_dec : EqDecision Emit.
Proof. solve_decision. Defined.

Definition in_room (room : string) (ks : string * Socket) : Prop :=
  room ∈ rooms ks.2.

#[global] Instance in_room_dec room ks : Decision (in_room room ks).
Proof. unfold in_room. apply _. Defined.

(** [connectionsInRoom]: the sockets currently joined to [room]. *)
Definition connectionsInRoom (socks : gmap string Socket) (room : string) : gset string :=
  dom (filter (in_room room) socks).

(** The live sockets of a user. *)
Definition connectionsFor (socks : gmap string Socket) (u : string) : gset string :=
  dom (filter (λ ks : string * Socket, userId ks.2 = Some u) socks).

(** The sockets an emit reaches, by Socket.IO's addressing: [io.emit]
    reaches every live socket, [io.to(room)] the sockets joined to the
    room, [socket.to(room)] the same without the emitting socket, and
    [socket.emit] the socket alone. *)
Definition recipients (socks : gmap string Socket) (t : Target) : gset string :=
  match t with
  | ToAll => dom socks
  | ToRoom room => connectionsInRoom socks room
  | ToRoomExcept room sk => connectionsInRoom socks room ∖ {[ sk ]}
  | ToSocket sk => {[ sk ]}
  end.

Definition is_offline_of (u : string) (e : Emit) : bool :=
  bool_decide (event e = user_offline u).
Definition is_status_update (e : Emit) : bool :=
  match event e with message_status_update _ _ _ => true | _ => false end.

End Registry.
Export Registry.

(** ** [src/lib/socket.ts]: the handlers of [initializeSocketServer] *)

Module SocketHandlers.

(** [MessageStatusData.status]: 'delivered' | 'read'. *)
Inductive StatusRequest := req_delivered | req_read.

Definition status_of (r : StatusRequest) : MessageStatus :=
  match r with req_delivered => delivered | req_read => read end.

(** [io.on('connection', ...)] for a socket the middleware let through.
    A socket id names one live socket, so a connection under an id that is
    already live does not occur and is a no-op here. *)
Definition on_connection (st : State) (sk : string) (uid : option string) (now : Z)
    : State * list Emit :=
  match sockets st !! sk with
  | Some _ => (st, [])
  | None =>
      match uid with
      | Some u =>
          let d := setPresence u true now (db st) in
          let userConversations := participantsOf d u in
          let rs : gset string :=
            list_to_set ((λ p, room_of (p_conversationId p)) <$> userConversations) in
          (mkState d (<[sk := mkSocket (Some u) rs]> (sockets st)),
           [mkEmit ToAll (user_online u)])
      | None => (mkState (db st) (<[sk := mkSocket None ∅]> (sockets st)), [])
      end
  end.

(** [socket.on('conversation:join', ...)].  The lookup hands
    [conversationId] to a [uuid] column: for a text the store refuses it
    fails, and the [catch] answers the requester. *)
Definition on_conversation_join (st : State) (sk : string) (conversationId : string)
    : State * list Emit :=
  match sockets st !! sk with
  | None => (st, [])
  | Some s =>
      match userId s with
      | None => (st, [])
      | Some u =>
          if negb (is_uuid conversationId) then
            (st, [mkEmit (ToSocket sk) (error "Failed to join conversation")])
          else
            match findParticipant (db st) conversationId u with
            | Some _ =>
                (mkState (db st)
                   (<[sk := mkSocket (userId s) ({[ room_of conversationId ]} ∪ rooms s)]>
                      (sockets st)),
                 [mkEmit (ToSocket sk) (conversation_joined conversationId)])
            | None => (st, [])
            end
      end
  end.

(** [socket.on('conversation:leave', ...)]. *)
Definition on_conversation_leave (st : State) (sk : string) (conversationId : string)
    : State * list Emit :=
  match sockets st !! sk with
  | None => (st, [])
  | Some s =>
      (mkState (db st)
         (<[sk := mkSocket (userId s) (rooms s ∖ {[ room_of conversationId ]})]>
            (sockets st)),
       [mkEmit (ToSocket sk) (conversation_left conversationId)])
  end.

(** [socket.on('message:send', ...)]; [mid] is the id the store draws for
    the new row. *)
Definition on_message_send (st : State) (sk : string)
    (conversationId content : string) (mid : string) (now : Z) : State * list Emit :=
  match sockets st !! sk with
  | None => (st, [])
  | Some s =>
      match userId s with
      | None => (st, [])
      | Some u =>
          if blank content then
            (st, [mkEmit (ToSocket sk) (error "Message content is required")])
          else
            match findParticipant (db st) conversationId u with
            | None =>
                (st, [mkEmit (ToSocket sk)
                        (error "Not a participant of this conversation")])
            | Some _ =>
                let message := new_message mid conversationId u (trim content) now in
                let d := with_messages (λ ms, (ms ++ [message])%list) (db st) in
                let sender := findUser d u in
                (mkState d (sockets st),
                 [mkEmit (ToRoom (room_of conversationId)) (message_new message sender);
                  mkEmit (ToRoom (room_of conversationId))
                         (conversation_update conversationId message sender)])
            end
      end
  end.

(** [socket.on('typing:start', ...)] ([isTyping = true]) and
    [socket.on('typing:stop', ...)] ([isTyping = false]). *)
Definition on_typing (st : State) (sk : string) (conversationId : string)
    (isTyping : bool) : State * list Emit :=
  match sockets st !! sk with
  | None => (st, [])
  | Some s =>
      match userId s with
      | None => (st, [])
      | Some u =>
          (st, [mkEmit (ToRoomExcept (room_of conversationId) sk)
                       (typing_update conversationId u isTyping)])
      end
  end.

(** [socket.on('message:status', ...)]. *)
Definition on_message_status (st : State) (sk : string) (messageId : string)
    (status : StatusRequest) : State * list Emit :=
  match sockets st !! sk with
  | None => (st, [])
  | Some s =>
      match userId s with
      | None => (st, [])
      | Some u =>
          let d := with_messages
                     (update_where (has_id messageId) (set_status (status_of status)))
                     (db st) in
          match findMessage d messageId with
          | Some message =>
              (mkState d (sockets st),
               [mkEmit (ToRoom (room_of (m_conversationId message)))
                       (message_status_update messageId (status_of status) u)])
          | None => (mkState d (sockets st), [])
          end
      end
  end.

(** [socket.on('disconnect', ...)].  Socket.IO has taken the socket out of
    its rooms and out of the registry when the handler runs. *)
Definition on_disconnect (st : State) (sk : string) (now : Z) : State * list Emit :=
  match sockets st !! sk with
  | None => (st, [])
  | Some s =>
      let socks := delete sk (sockets st) in
      match userId s with
      | Some u =>
          (mkState (setPresence u false now (db st)) socks,
           [mkEmit ToAll (user_offline u)])
      | None => (mkState (db st) socks, [])
      end
  end.

End SocketHandlers.
Export SocketHandlers.

(** ** [src/routes/chat.routes.ts]: the REST handlers *)

Module Routes.

Inductive Body :=
| b_error (error : string)
| b_conversation (conversation : Conversation)
| b_message (message : option Message)
| b_text (message : string)
| b_read (message : string) (updatedMessagesCount : nat).

Record Response := mkResponse { code : nat; body : Body }.

(** [req.app.get('io')]: [src/index.ts] stores the server under this key
    before it starts listening. *)
Definition app_io : bool := true.

(** [POST /chat/conversations]; [cid] and [idgen 0], [idgen 1], ... are the
    ids the store draws for the conversation row and the participant rows.
    [user_id] of a participant row references [users.id]: the one insert of
    all the participant rows fails when one of the ids has no user row, the
    [catch] then answers 500, and the conversation row, inserted before
    and outside any transaction, stays. *)
Definition create_conversation (uid : option string)
    (participantIds : option (list string)) (name : option string) (isGroup : bool)
    (cid : string) (idgen : nat → string) (now : Z) (d : Db)
    : Db * Response * list Emit :=
  match uid with
  | None => (d, mkResponse 401 (b_error "Unauthorized"), [])
  | Some u =>
      match participantIds with
      | None | Some [] =>
          (d, mkResponse 400 (b_error "At least one participant is required"), [])
      | Some pids =>
          let conversation :=
            mkConversation cid name (isGroup || (1 <? length pids)%nat) now now in
          let d1 := with_conversations (λ cs, (cs ++ [conversation])%list) d in
          let allParticipants := spread_set (u :: pids) in
          let rows := imap (λ i pId, mkParticipant (idgen i) cid pId now None)
                           allParticipants in
          if bool_decide (Forall (λ pId, is_Some (findUser d1 pId)) allParticipants)
          then
            (with_participants (λ ps, (ps ++ rows)%list) d1,
             mkResponse 201 (b_conversation conversation), [])
          else (d1, mkResponse 500 (b_error "Internal server error"), [])
      end
  end.

(** [POST /chat/conversations/:conversationId/messages]. *)
Definition send_message (uid : option string) (conversationId content : string)
    (mid : string) (now : Z) (d : Db) : Db * Response * list Emit :=
  match uid with
  | None => (d, mkResponse 401 (b_error "Unauthorized"), [])
  | Some u =>
      if blank content then
        (d, mkResponse 400 (b_error "Message content is required"), [])
      else
        match findParticipant d conversationId u with
        | None =>
            (d, mkResponse 403 (b_error "Not a participant of this conversation"), [])
        | Some _ =>
            let message := new_message mid conversationId u (trim content) now in
            let d1 := with_messages (λ ms, (ms ++ [message])%list) d in
            let d2 := with_conversations
                        (update_where (λ c, bool_decide (c_id c = conversationId))
                                      (set_c_updatedAt now)) d1 in
            let sender := findUser d2 u in
            (d2, mkResponse 201 (b_message (Some message)),
             if app_io
             then [mkEmit (ToRoom (room_of conversationId)) (message_new message sender)]
             else [])
        end
  end.

(** [PUT /chat/messages/:messageId]. *)
Definition edit_message (uid : option string) (messageId content : string) (now : Z)
    (d : Db) : Db * Response * list Emit :=
  match uid with
  | None => (d, mkResponse 401 (b_error "Unauthorized"), [])
  | Some u =>
      if blank content then
        (d, mkResponse 400 (b_error "Message content is required"), [])
      else
        match findMessage d messageId with
        | None => (d, mkResponse 404 (b_error "Message not found"), [])
        | Some message =>
            if bool_decide (m_senderId message ≠ u) then
              (d, mkResponse 403 (b_error "Not authorized to edit this message"), [])
            else
              let updated :=
                returning (has_id messageId) (set_edited (trim content) now)
                          (messages d) in
              (with_messages
                 (update_where (has_id messageId) (set_edited (trim content) now)) d,
               mkResponse 200 (b_message (head updated)), [])
        end
  end.

(** [DELETE /chat/messages/:messageId]. *)
Definition delete_message (uid : option string) (messageId : string) (d : Db)
    : Db * Response * list Emit :=
  match uid with
  | None => (d, mkResponse 401 (b_error "Unauthorized"), [])
  | Some u =>
      match findMessage d messageId with
      | None => (d, mkResponse 404 (b_error "Message not found"), [])
      | Some message =>
          if bool_decide (m_senderId message ≠ u) then
            (d, mkResponse 403 (b_error "Not authorized to delete this message"), [])
          else
            (with_messages (delete_where (has_id messageId)) d,
             mkResponse 200 (b_text "Message deleted successfully"), [])
      end
  end.

(** The [where] of the bulk update of [POST .../read]: the messages of the
    conversation, not sent by the caller, not yet read. *)
Definition unread_by_others (conversationId u : string) (m : Message) : bool :=
  bool_decide (m_conversationId m = conversationId)
  && bool_decide (m_senderId m ≠ u)
  && bool_decide (m_status m ≠ read).

(** [POST /chat/conversations/:conversationId/read].  The handler tests the
    module-level binding [io] that the file imports from [../lib/socket];
    [src/lib/socket.ts] exports [initializeSocketServer] only, so what the
    import yields is left open: [io] says whether the binding is a server. *)
Definition mark_read (io : bool) (uid : option string) (conversationId : string)
    (now : Z) (d : Db) : Db * Response * list Emit :=
  match uid with
  | None => (d, mkResponse 401 (b_error "Unauthorized"), [])
  | Some u =>
      let d1 := with_participants
                  (update_where (is_row_of conversationId u) (set_lastReadAt now)) d in
      let updatedMessages :=
        returning (unread_by_others conversationId u) (set_status read) (messages d1) in
      let d2 := with_messages
                  (update_where (unread_by_others conversationId u) (set_status read))
                  d1 in
      (d2,
       mkResponse 200 (b_read "Conversation marked as read" (length updatedMessages)),
       if (0 <? length updatedMessages)%nat && io
       then (λ message,
               mkEmit (ToRoom (room_of conversationId))
                      (message_status_update (m_id message) read u))
            <$> updatedMessages
       else [])
  end.

End Routes.
Export Routes.

(** ** The system as a transition system *)

Module System.

Inductive Op :=
| Connect (sk : string) (uid : option string) (now : Z)
| Join (sk conversationId : string)
| Leave (sk conversationId : string)
| Send (sk conversationId content mid : string) (now : Z)
| Typing (sk conversationId : string) (isTyping : bool)
| Status (sk messageId : string) (status : StatusRequest)
| Disconnect (sk : string) (now : Z)
| RestCreate (uid : option string) (participantIds : option (list string))
             (name : option string) (isGroup : bool) (cid : string)
             (idgen : nat → string) (now : Z)
| RestSend (uid : option string) (conversationId content mid : string) (now : Z)
| RestEdit (uid : option string) (messageId content : string) (now : Z)
| RestDelete (uid : option string) (messageId : string)
| RestRead (uid : option string) (conversationId : string) (now : Z).

(** A REST handler acts on the store and leaves the registry alone. *)
Definition rest (st : State) (r : Db * Response * list Emit) : State * list Emit :=
  (mkState r.1.1 (sockets st), r.2).

Definition step (io : bool) (st : State) (op : Op) : State * list Emit :=
  match op with
  | Connect sk uid now => on_connection st sk uid now
  | Join sk c => on_conversation_join st sk c
  | Leave sk c => on_conversation_leave st sk c
  | Send sk c content mid now => on_message_send st sk c content mid now
  | Typing sk c b => on_typing st sk c b
  | Status sk mid s => on_message_status st sk mid s
  | Disconnect sk now => on_disconnect st sk now
  | RestCreate uid pids name g cid idgen now =>
      rest st (create_conversation uid pids name g cid idgen now (db st))
  | RestSend uid c content mid now => rest st (send_message uid c content mid now (db st))
  | RestEdit uid mid content now => rest st (edit_message uid mid content now (db st))
  | RestDelete uid mid => rest st (delete_message uid mid (db st))
  | RestRead uid c now => rest st (mark_read io uid c now (db st))
  end.

(** Running a sequence of operations, collecting what is emitted. *)
Fixpoint run (io : bool) (st : State) (ops : list Op) : State * list Emit :=
  match ops with
  | [] => (st, [])
  | op :: ops' =>
      let r := step io st op in
      let r' := run io r.1 ops' in
      (r'.1, (r.2 ++ r'.2)%list)
  end.

(** The server starts with a store and no socket. *)
Definition boot (d : Db) : State := mkState d ∅.

(** Every room recorded for the socket is the room of a conversation for
    which the store holds a participant row of the socket's user. *)
Definition socket_confirmed (d : Db) (s : Socket) : Prop :=
  ∀ room, room ∈ rooms s →
    ∃ c u, room = room_of c ∧ userId s = Some u ∧ is_Some (findParticipant d c u).

Definition rooms_confirmed (st : State) : Prop :=
  map_Forall (λ _ s, socket_confirmed (db st) s) (sockets st).

(** The participant rows of [d] are still found in [d']. *)
Definition participants_kept (d d' : Db) : Prop :=
  ∀ c u, is_Some (findParticipant d c u) → is_Some (findParticipant d' c u).

End System.
Export System.

(** ** A small deployment used to evaluate the handlers *)

Module Fixture.

Definition alice := mkUser "u1" "alice@example.org" None None false None 0 0.
Definition bob := mkUser "u2" "bob@example.org" None None false None 0 0.
Definition carol := mkUser "u3" "carol@example.org" None None false None 0 0.

Definition c1 := mkConversation "c1" None false 0 0.

(** A message of alice in [c1] that bob has read. *)
Definition m1 := mkMessage "m1" "c1" "u1" "hi" read false 1 1.

(** alice and bob are the participants of [c1]; carol is not. *)
Definition db0 : Db :=
  mkDb [alice; bob; carol] [c1]
       [mkParticipant "p1" "c1" "u1" 0 None; mkParticipant "p2" "c1" "u2" 0 None]
       [m1].

(** alice connected from two devices, [A] and [B]; bob from [C]; carol
    from [D]. *)
Definition live : State :=
  (run false (boot db0)
     [Connect "A" (Some "u1") 5; Connect "B" (Some "u1") 6;
      Connect "C" (Some "u2") 7; Connect "D" (Some "u3") 8]).1.

End Fixture.

(** ** [src/lib/auth.ts] and the handshake middleware of [src/lib/socket.ts] *)

Module Auth.

(** What [supabaseAdmin.auth.getUser(token)] yields for a token it accepts:
    the fields of the user the handlers read. *)
Record Identity := mkIdentity {
  i_id : string;
  i_email : string;
  i_role : option string
}.

(** The identity verifier: [None] stands for [error || !user]. *)
Definition Verifier := string → option Identity.

(** [s.substring(n)]. *)
Fixpoint drop_chars (n : nat) (s : string) : string :=
  match n, s with
  | O, _ => s
  | S _, EmptyString => EmptyString
  | S n', String _ s' => drop_chars n' s'
  end.

(** [s.startsWith(p)]. *)
Definition startsWith (s p : string) : bool := String.prefix p s.

(** [s.replace(pat, '')] for a string pattern: the first occurrence of
    [pat] is taken out. *)
Fixpoint replace_first (pat s : string) : string :=
  if String.prefix pat s then drop_chars (String.length pat) s
  else match s with
       | EmptyString => EmptyString
       | String a s' => String a (replace_first pat s')
       end.

(** [s.split(sep)[0]]: what precedes the first [sep]. *)
Fixpoint before_char (sep : ascii) (s : string) : string :=
  match s with
  | EmptyString => EmptyString
  | String a s' => if Ascii.eqb a sep then EmptyString else String a (before_char sep s')
  end.

(** [authenticate]: the response that ends the request, or the user
    attached to it as [req.user]. *)
Definition authenticate (verify : Verifier) (authorization : option string)
    : Response + Identity :=
  match authorization with
  | None => inl (mkResponse 401 (b_error "No authorization token provided"))
  | Some authHeader =>
      if negb (startsWith authHeader "Bearer ") then
        inl (mkResponse 401 (b_error "No authorization token provided"))
      else
        let token := drop_chars 7 authHeader in
        match verify token with
        | None => inl (mkResponse 401 (b_error "Invalid or expired token"))
        | Some user => inr (mkIdentity (i_id user) (i_email user) (i_role user))
        end
  end.

(** [socket.handshake]: [auth.token] and the [authorization] header. *)
Record Handshake := mkHandshake {
  auth_token : option string;
  authorization : option string
}.

(** The value of [a || b] where a missing or empty string is falsy. *)
Definition or_else (a b : option string) : option string :=
  match a with
  | Some (String _ _) => a
  | _ => b
  end.

(** [io.use(...)]: the error handed to [next], or the [userId] and
    [userEmail] attached to the socket. *)
Definition socket_auth (verify : Verifier) (h : Handshake) : string + (string * string) :=
  match or_else (auth_token h) (replace_first "Bearer " <$> authorization h) with
  | None | Some EmptyString => inl "Authentication token required"
  | Some token =>
      match verify token with
      | None => inl "Invalid authentication token"
      | Some user => inr (i_id user, i_email user)
      end
  end.

(** A handshake followed, when the middleware lets it through, by the
    connection handler. *)
Definition handshake_connection (verify : Verifier) (st : State) (sk : string)
    (h : Handshake) (now : Z) : State * list Emit :=
  match socket_auth verify h with
  | inl _ => (st, [])
  | inr (uid, _) => on_connection st sk (Some uid) now
  end.

(** [db.query.users.findFirst({where: eq(users.email, email)})]. *)
Definition findUserByEmail (d : Db) (email : string) : option User :=
  List.find (λ r, bool_decide (u_email r = email)) (users d).

(** [syncUserToDatabase]. *)
Definition syncUserToDatabase (userId email : string) (username : option string)
    (now : Z) (d : Db) : Db * bool :=
  match findUser d userId with
  | Some _ => (d, true)
  | None =>
      match findUserByEmail d email with
      | Some _ => (d, true)
      | None =>
          let name := or_else username (Some (before_char "@" email)) in
          (with_users
             (λ us, (us ++ [mkUser userId email name None false None now now])%list) d,
           true)
      end
  end.

End Auth.
Export Auth.

(** ** The chat router: [router.use(authenticate)] before every route *)

Module Router.

(** The mutating routes of [src/routes/chat.routes.ts] with what they read
    from the request. *)
Inductive Mutation :=
| PostConversation (participantIds : option (list string)) (name : option string)
                   (isGroup : bool)
| PostMessage (conversationId content : string)
| PutMessage (messageId content : string)
| DeleteMessage (messageId : string)
| PostRead (conversationId : string).

(** What the environment supplies while a request is handled. *)
Record Draw := mkDraw {
  clock : Z;
  uuid : string;
  uuids : nat → string
}.

Definition dispatch (io : bool) (uid : option string) (rq : Mutation) (e : Draw) (d : Db)
    : Db * Response * list Emit :=
  match rq with
  | PostConversation pids name g =>
      create_conversation uid pids name g (uuid e) (uuids e) (clock e) d
  | PostMessage c content => send_message uid c content (uuid e) (clock e) d
  | PutMessage mid content => edit_message uid mid content (clock e) d
  | DeleteMessage mid => delete_message uid mid d
  | PostRead c => mark_read io uid c (clock e) d
  end.

(** A request to a mutating chat route; [req.user?.id] is the id of the
    user [authenticate] attached. *)
Definition chat_router (verify : Verifier) (io : bool) (authorization : option string)
    (rq : Mutation) (e : Draw) (d : Db) : Db * Response * list Emit :=
  match authenticate verify authorization with
  | inl response => (d, response, [])
  | inr user => dispatch io (Some (i_id user)) rq e d
  end.

End Router.
Export Router.

(** ** The reading routes of [src/routes/chat.routes.ts] *)

Module Queries.

(** [gt(messages.createdAt, cp.lastReadAt)], or no condition when the row
    has no [lastReadAt]. *)
Definition created_after (lastReadAt : option Z) (m : Message) : bool :=
  match lastReadAt with
  | Some t => t <? m_createdAt m
  | None => true
  end.

(** The [unreadCount] that [GET /chat/conversations] computes for the
    participant row [cp] of the caller [userId]: the query for the messages
    of the conversation created after [lastReadAt], then the filter on the
    rows it returned. *)
Definition unreadCount (d : Db) (userId : string) (cp : ConversationParticipant) : nat :=
  let unreadMessages :=
    filter (λ m, bool_decide (m_conversationId m = p_conversationId cp)
                 && created_after (p_lastReadAt cp) m = true)
           (messages d) in
  length
    (filter (λ msg,
               match p_lastReadAt cp with
               | None => bool_decide (m_senderId msg ≠ userId)
               | Some t => (t <? m_createdAt msg) && bool_decide (m_senderId msg ≠ userId)
               end = true)
            unreadMessages).

(** [GET /chat/conversations], without the relations joined to each row
    (the conversation, its last message, its participants): the caller's
    participant rows, each with its [unreadCount]. *)
Definition get_conversations (uid : option string) (d : Db)
    : nat * (string + list (ConversationParticipant * nat)) :=
  match uid with
  | None => (401%nat, inl "Unauthorized")
  | Some userId =>
      (200%nat, inr ((λ cp, (cp, unreadCount d userId cp)) <$> participantsOf d userId))
  end.

(** The columns of a user row other than [isOnline] and [lastSeen]. *)
Definition profile (r : User) : string * string * option string * option string * Z * Z :=
  (u_id r, u_email r, u_username r, u_avatarUrl r, u_createdAt r, u_updatedAt r).

(** The content of a stored message is not empty and has no white space at
    either end. *)
Definition content_normal (m : Message) : Prop :=
  m_content m ≠ "" ∧ trim (m_content m) = m_content m.

End Queries.
Export Queries.

(** ** A verifier and requests used to evaluate the middleware *)

Module AuthFixture.

(** The verifier accepts alice's and bob's tokens. *)
Definition verify0 : Verifier := λ token,
  if String.eqb token "tok-alice" then Some (mkIdentity "u1" "alice@example.org" None)
  else if String.eqb token "tok-bob" then Some (mkIdentity "u2" "bob@example.org" None)
  else None.

Definition draw0 : Draw := mkDraw 50 "x1" (λ _, "x2").

(** [c1] with a second message, bob's and not yet read by alice. *)
Definition db1 : Db :=
  with_messages (λ ms, (ms ++ [mkMessage "m2" "c1" "u2" "yo" sent false 3 3])%list)
                Fixture.db0.

(** A store whose ids are spelled as uuids: dana and erin, and a
    conversation of dana's; both are connected, dana from [A] and erin
    from [B]. *)
Definition dana_id : string := "7c9e6679-7425-40de-944b-e07fc1f90ae7".
Definition erin_id : string := "16fd2706-8baf-433b-82eb-8c7fada847da".
Definition talk_id : string := "0f8fad5b-d9cb-469f-a165-70867728950e".

Definition db2 : Db :=
  mkDb [mkUser dana_id "dana@example.org" None None false None 0 0;
        mkUser erin_id "erin@example.org" None None false None 0 0]
       [mkConversation talk_id None false 0 0]
       [mkParticipant "6ecd8c99-4036-403d-bf84-cf8400f67836" talk_id dana_id 0 None]
       [].

Definition live2 : State :=
  (run false (boot db2) [Connect "A" (Some dana_id) 5; Connect "B" (Some erin_id) 6]).1.

End AuthFixture.

(** * Properties *)

(** ** Lookups after the statements of the store *)

Section StoreFacts.

Lemma find_update_where {A} (w : A → bool) (f : A → A) (rows : list A) :
  (∀ r, w (f r) = w r) →
  List.find w (update_where w f rows) = f <$> List.find w rows.
Proof.
  intros Hw. unfold update_where.
  induction rows as [|r rows IH]; [reflexivity|].
  cbn. destruct (w r) eqn:E.
  - rewrite Hw, E. reflexivity.
  - rewrite E. apply IH.
Qed.

Lemma find_is_Some {A} (w : A → bool) (rows : list A) :
  is_Some (List.find w rows) ↔ ∃ r, r ∈ rows ∧ w r = true.
Proof.
  induction rows as [|r rows IH]; cbn.
  - split; [intros [? ?]; discriminate | intros (? & H & _); inversion H].
  - destruct (w r) eqn:E.
    + split; [intros _; exists r; split; [left | done] | eauto].
    + rewrite IH. split.
      * intros (x & Hx & Hw). exists x. split; [by right | done].
      * intros (x & Hx & Hw). apply elem_of_cons in Hx as [-> | Hx]; [congruence | eauto].
Qed.

Lemma set_status_same (m : Message) : set_status (m_status m) m = m.
Proof. by destruct m. Qed.

Lemma has_id_set_status mid s m : has_id mid (set_status s m) = has_id mid m.
Proof. reflexivity. Qed.

Lemma findMessage_set_status d mid s :
  findMessage (with_messages (update_where (has_id mid) (set_status s)) d) mid
  = set_status s <$> findMessage d mid.
Proof. apply find_update_where. intros r. apply has_id_set_status. Qed.

Lemma findParticipant_is_Some d c u :
  is_Some (findParticipant d c u) ↔
  ∃ p, p ∈ conversationParticipants d ∧ p_conversationId p = c ∧ p_userId p = u.
Proof.
  unfold findParticipant. rewrite find_is_Some. unfold is_row_of.
  split; intros (p & Hp & H); exists p; (split; [done|]).
  - apply andb_prop in H as [H1 H2].
    by apply bool_decide_eq_true in H1, H2.
  - destruct H as [H1 H2]. by rewrite !bool_decide_eq_true_2.
Qed.

End StoreFacts.

(** ** The [message:status] handler *)

Section MessageStatus.

Variables (st : State) (sk : string) (s : Socket) (u : string).
Hypothesis Hsock : sockets st !! sk = Some s.
Hypothesis Huser : userId s = Some u.

(** What the handler does on a message id the store knows. *)
Lemma on_message_status_found messageId req m :
  findMessage (db st) messageId = Some m →
  on_message_status st sk messageId req =
    (mkState (with_messages
                (update_where (has_id messageId) (set_status (status_of req))) (db st))
             (sockets st),
     [mkEmit (ToRoom (room_of (m_conversationId m)))
             (message_status_update messageId (status_of req) u)]).
Proof.
  intros Hm. unfold on_message_status. rewrite Hsock, Huser.
  rewrite findMessage_set_status, Hm. reflexivity.
Qed.

End MessageStatus.

(** C1, as stated, fails: bob's socket asks for [delivered] on a message
    that is already [read]; the stored status goes back to [delivered] and
    a [message:status:update] is broadcast. *)
Lemma status_regresses_on_earlier_request :
  let r := on_message_status Fixture.live "C" "m1" req_delivered in
  findMessage (db Fixture.live) "m1" = Some Fixture.m1
  ∧ (status_rank (status_of req_delivered) < status_rank (m_status Fixture.m1))%nat
  ∧ m_status <$> findMessage (db r.1) "m1" = Some delivered
  ∧ List.filter is_status_update r.2
    = [mkEmit (ToRoom "conversation:c1") (message_status_update "m1" delivered "u2")].
Proof. cbv zeta. split_and!; [reflexivity | cbn; lia | reflexivity | reflexivity]. Qed.

(** C1 (amended): the [message:status] handler writes the requested status
    over the stored one without comparing them.  On an existing message the
    stored row becomes the old row with the requested status; a request
    carrying the current status therefore leaves the row as it was; no
    request is answered with an [error] event; and every request is followed
    by exactly one [message:status:update]. *)
Theorem status_request_overwrites st sk s u messageId req m :
  sockets st !! sk = Some s →
  userId s = Some u →
  findMessage (db st) messageId = Some m →
  let r := on_message_status st sk messageId req in
  findMessage (db r.1) messageId = Some (set_status (status_of req) m)
  ∧ (m_status m = status_of req → findMessage (db r.1) messageId = Some m)
  ∧ length (List.filter is_status_update r.2) = 1%nat
  ∧ (∀ e msg, e ∈ r.2 → event e ≠ error msg).
Proof.
  intros Hsock Huser Hm r. subst r.
  rewrite (on_message_status_found st sk s u Hsock Huser messageId req m Hm).
  cbn [fst snd db].
  rewrite findMessage_set_status, Hm. cbn [fmap option_fmap option_map].
  split_and!.
  - reflexivity.
  - intros <-. by rewrite set_status_same.
  - reflexivity.
  - intros e msg He. apply list_elem_of_singleton in He as ->. discriminate.
Qed.

Lemma status_request_overwrites_witness :
  findMessage (db (on_message_status Fixture.live "C" "m1" req_read).1) "m1"
  = Some Fixture.m1.
Proof.
  eapply (status_request_overwrites Fixture.live "C" _ "u2" "m1" req_read Fixture.m1).
  - vm_compute. reflexivity.
  - reflexivity.
  - reflexivity.
  - reflexivity.
Defined.

(** C9: the [message:status] handler looks up no participant row.  For a
    socket with a user id and a message id the store knows, the stored
    status becomes the requested one and one [message:status:update] goes
    to the room of the message's conversation, whoever the user is: no
    hypothesis relates [u] to the conversation. *)
Theorem status_request_needs_no_participant st sk s u messageId req m :
  sockets st !! sk = Some s →
  userId s = Some u →
  findMessage (db st) messageId = Some m →
  let r := on_message_status st sk messageId req in
  m_status <$> findMessage (db r.1) messageId = Some (status_of req)
  ∧ r.2 = [mkEmit (ToRoom (room_of (m_conversationId m)))
                  (message_status_update messageId (status_of req) u)]
  ∧ (∀ e, e ∈ r.2 →
       recipients (sockets r.1) (target e)
       = connectionsInRoom (sockets st) (room_of (m_conversationId m))).
Proof.
  intros Hsock Huser Hm r. subst r.
  rewrite (on_message_status_found st sk s u Hsock Huser messageId req m Hm).
  cbn [fst snd db sockets].
  rewrite findMessage_set_status, Hm.
  split_and!; [reflexivity | reflexivity |].
  intros e He. apply list_elem_of_singleton in He as ->. reflexivity.
Qed.

(** carol is no participant of [c1], yet her request marks alice's message. *)
Lemma status_request_needs_no_participant_witness :
  findParticipant (db Fixture.live) "c1" "u3" = None
  ∧ (on_message_status Fixture.live "D" "m1" req_delivered).2
    = [mkEmit (ToRoom (room_of "c1")) (message_status_update "m1" delivered "u3")].
Proof.
  split; [reflexivity|].
  eapply (status_request_needs_no_participant
            Fixture.live "D" _ "u3" "m1" req_delivered Fixture.m1).
  - vm_compute. reflexivity.
  - reflexivity.
  - reflexivity.
Defined.

(** ** Presence: the [connection] and [disconnect] handlers *)

Section Presence.

Lemma on_disconnect_user st sk s u now :
  sockets st !! sk = Some s →
  userId s = Some u →
  on_disconnect st sk now =
    (mkState (setPresence u false now (db st)) (delete sk (sockets st)),
     [mkEmit ToAll (user_offline u)]).
Proof. intros Hs Hu. unfold on_disconnect. by rewrite Hs, Hu. Qed.

Lemma on_connection_user st sk u now :
  sockets st !! sk = None →
  (on_connection st sk (Some u) now).2 = [mkEmit ToAll (user_online u)].
Proof. intros Hs. unfold on_connection. by rewrite Hs. Qed.

Lemma findUser_setPresence d u b now :
  findUser (setPresence u b now d) u = set_isOnline b now <$> findUser d u.
Proof. unfold findUser, setPresence. cbn. by apply find_update_where. Qed.

End Presence.

(** C2, as stated, fails: alice is connected from [A] and [B]; when [A]
    disconnects, [B] is still her live connection and [user:offline] is
    emitted all the same. *)
Lemma offline_emitted_while_other_device_open :
  let r := on_disconnect Fixture.live "A" 9 in
  connectionsFor (sockets Fixture.live) "u1" = {[ "A"; "B" ]}
  ∧ connectionsFor (sockets r.1) "u1" = {[ "B" ]}
  ∧ List.filter (is_offline_of "u1") r.2 = [mkEmit ToAll (user_offline "u1")].
Proof. cbv zeta. split_and!; vm_compute; reflexivity. Qed.

(** C2 (amended): presence is announced per connection, with no grace
    window.  For a user with live connections [A] and [B], the disconnect
    of [A] emits [user:offline] at once, to every remaining socket ([B]
    included), and records the user as offline in the store although [B]
    stays open; disconnecting both emits it twice; and any later connection
    of the user emits [user:online] again. *)
Theorem presence_is_per_connection io st A B sA sB u t1 t2 :
  A ≠ B →
  sockets st !! A = Some sA → userId sA = Some u →
  sockets st !! B = Some sB → userId sB = Some u →
  let r := on_disconnect st A t1 in
  r.2 = [mkEmit ToAll (user_offline u)]
  ∧ sockets r.1 !! B = Some sB
  ∧ B ∈ recipients (sockets r.1) ToAll
  ∧ findUser (db r.1) u = set_isOnline false t1 <$> findUser (db st) u
  ∧ (run io st [Disconnect A t1; Disconnect B t2]).2
    = [mkEmit ToAll (user_offline u); mkEmit ToAll (user_offline u)]
  ∧ (∀ C t, sockets r.1 !! C = None →
       (on_connection r.1 C (Some u) t).2 = [mkEmit ToAll (user_online u)]).
Proof.
  intros HAB HA HuA HB HuB r. subst r.
  assert (HB' : delete A (sockets st) !! B = Some sB)
    by (by rewrite lookup_delete_ne).
  rewrite (on_disconnect_user st A sA u t1 HA HuA). cbn [fst snd db sockets].
  split_and!.
  - reflexivity.
  - exact HB'.
  - cbn. apply elem_of_dom. by exists sB.
  - apply findUser_setPresence.
  - cbn [run step fst snd].
    rewrite (on_disconnect_user st A sA u t1 HA HuA). cbn [fst snd].
    by rewrite (on_disconnect_user (mkState _ (delete A (sockets st))) B sB u t2 HB' HuB).
  - intros C t HC. by apply on_connection_user.
Qed.

Lemma presence_is_per_connection_witness :
  (on_disconnect Fixture.live "A" 9).2 = [mkEmit ToAll (user_offline "u1")].
Proof.
  eapply (presence_is_per_connection false Fixture.live "A" "B" _ _ "u1" 9 10).
  - discriminate.
  - vm_compute. reflexivity.
  - reflexivity.
  - vm_compute. reflexivity.
  - reflexivity.
Defined.

(** ** Sending: [message:send] and [POST .../messages] *)

(** [trim] on white space beyond ASCII: U+00A0 alone is blank; U+00A0 and
    U+3000 with a line feed are taken off around 'hello'; U+200B, which
    is no white space, is kept. *)
Lemma trim_unicode_white_space :
  blank (of_bytes [194; 160]) = true
  ∧ trim (of_bytes [194; 160] +:+ "hello" +:+ of_bytes [227; 128; 128; 10]) = "hello"
  ∧ blank (of_bytes [239; 187; 191; 226; 128; 168; 225; 154; 128; 226; 129; 159])
    = true
  ∧ blank (of_bytes [226; 128; 139]) = false.
Proof. split_and!; reflexivity. Qed.

(** A content of one U+00A0 is refused as blank on both send paths and on
    edit, whoever asks. *)
Lemma no_break_space_is_refused :
  (on_message_send Fixture.live "A" "c1" (of_bytes [194; 160]) "m2" 50).2
  = [mkEmit (ToSocket "A") (error "Message content is required")]
  ∧ send_message (Some "u1") "c1" (of_bytes [194; 160]) "m2" 50 Fixture.db0
    = (Fixture.db0, mkResponse 400 (b_error "Message content is required"), [])
  ∧ edit_message (Some "u1") "m1" (of_bytes [194; 160]) 50 Fixture.db0
    = (Fixture.db0, mkResponse 400 (b_error "Message content is required"), []).
Proof. split_and!; reflexivity. Qed.

(** C3, as stated, fails: carol is no participant of [c1]; her
    [message:send] with an empty content is answered with the error for the
    content, not with the one for the missing participant row. *)
Lemma blank_send_by_non_participant :
  findParticipant (db Fixture.live) "c1" "u3" = None
  ∧ (on_message_send Fixture.live "D" "c1" "" "m9" 9).2
    = [mkEmit (ToSocket "D") (error "Message content is required")].
Proof. split; reflexivity. Qed.

(** C3 (amended): a [message:send] for a conversation of the store that
    the socket's user is no participant of is rejected: the state is exactly
    as before, nothing is broadcast, and one [error] event goes to the
    requesting socket alone.  The content is checked first: the error reads
    'Not a participant of this conversation' when the content is not blank
    and 'Message content is required' when it is. *)
Theorem send_by_non_participant_rejected st sk s u conversationId content mid now :
  sockets st !! sk = Some s →
  userId s = Some u →
  is_Some (findConversation (db st) conversationId) →
  findParticipant (db st) conversationId u = None →
  let r := on_message_send st sk conversationId content mid now in
  r.1 = st
  ∧ r.2 = [mkEmit (ToSocket sk)
             (error (if blank content then "Message content is required"
                     else "Not a participant of this conversation"))]
  ∧ (∀ e, e ∈ r.2 → recipients (sockets r.1) (target e) = {[ sk ]}).
Proof.
  intros Hs Hu _ Hp r. subst r. unfold on_message_send.
  rewrite Hs, Hu. destruct (blank content); [|rewrite Hp]; cbn [fst snd];
    (split_and!; [reflexivity | reflexivity |]);
    intros e He; apply list_elem_of_singleton in He as ->; reflexivity.
Qed.

Lemma send_by_non_participant_rejected_witness :
  (on_message_send Fixture.live "D" "c1" "x" "m9" 9).2
  = [mkEmit (ToSocket "D") (error "Not a participant of this conversation")].
Proof.
  eapply (send_by_non_participant_rejected Fixture.live "D" _ "u3" "c1" "x" "m9" 9).
  - vm_compute. reflexivity.
  - reflexivity.
  - by eexists.
  - reflexivity.
Defined.



(** The socket path never writes to the conversations table. *)
Lemma on_message_send_conversations st sk conversationId content mid now :
  conversations (db (on_message_send st sk conversationId content mid now).1)
  = conversations (db st).
Proof.
  unfold on_message_send.
  destruct (sockets st !! sk) as [s|]; [|reflexivity].
  destruct (userId s) as [u|]; [|reflexivity].
  destruct (blank content); [reflexivity|].
  destruct (findParticipant (db st) conversationId u); reflexivity.
Qed.

(** C6 (the code departs from the claim): alice sends 'hi' to [c1] at time
    50.  Over the socket the message is stored with status [sent] and
    [message:new] goes to the room, but [updatedAt] of the conversation
    stays 0; the REST handler, on the same input, bumps it to 50. *)
Theorem socket_send_keeps_updatedAt :
  let r := on_message_send Fixture.live "A" "c1" "hi" "m2" 50 in
  let q := send_message (Some "u1") "c1" "hi" "m2" 50 (db Fixture.live) in
  messages (db r.1) = [Fixture.m1; mkMessage "m2" "c1" "u1" "hi" sent false 50 50]
  ∧ (∃ sender,
       mkEmit (ToRoom "conversation:c1")
              (message_new (mkMessage "m2" "c1" "u1" "hi" sent false 50 50) sender)
       ∈ r.2)
  ∧ c_updatedAt <$> conversations (db r.1) = [0]
  ∧ messages q.1.1 = messages (db r.1)
  ∧ c_updatedAt <$> conversations q.1.1 = [50].
Proof.
  cbv zeta. split_and!; try reflexivity.
  eexists. vm_compute. left.
Qed.

(** ** Ownership: [PUT /messages/:id] and [DELETE /messages/:id] *)

(** C7, as stated, fails: bob edits alice's message with a blank content
    and is answered 400 'Message content is required', not 403. *)
Lemma blank_edit_by_non_sender :
  findMessage Fixture.db0 "m1" = Some Fixture.m1
  ∧ m_senderId Fixture.m1 ≠ "u2"
  ∧ edit_message (Some "u2") "m1" "  " 9 Fixture.db0
    = (Fixture.db0, mkResponse 400 (b_error "Message content is required"), []).
Proof. split_and!; [reflexivity | discriminate | reflexivity]. Qed.

(** C7 (amended): an edit or delete of an existing message by a user other
    than its sender leaves the store unchanged in every field and emits
    nothing.  A delete is answered 403; an edit is answered 403 when its
    content is not blank and 400 'Message content is required' when it is,
    the content being checked before the ownership. *)
Theorem edit_delete_by_non_sender_rejected u messageId content now d m :
  findMessage d messageId = Some m →
  m_senderId m ≠ u →
  edit_message (Some u) messageId content now d
  = (d,
     if blank content
     then mkResponse 400 (b_error "Message content is required")
     else mkResponse 403 (b_error "Not authorized to edit this message"),
     [])
  ∧ delete_message (Some u) messageId d
    = (d, mkResponse 403 (b_error "Not authorized to delete this message"), []).
Proof.
  intros Hm Hne. unfold edit_message, delete_message. rewrite Hm.
  rewrite (bool_decide_eq_true_2 _ Hne).
  by destruct (blank content).
Qed.

Lemma edit_delete_by_non_sender_rejected_witness :
  delete_message (Some "u2") "m1" Fixture.db0
  = (Fixture.db0, mkResponse 403 (b_error "Not authorized to delete this message"), []).
Proof.
  eapply (edit_delete_by_non_sender_rejected "u2" "m1" "bye" 9 Fixture.db0 Fixture.m1).
  - reflexivity.
  - discriminate.
Defined.

(** ** Typing indicators *)

Lemma elem_of_connectionsInRoom socks room k :
  k ∈ connectionsInRoom socks room ↔ ∃ s, socks !! k = Some s ∧ room ∈ rooms s.
Proof.
  unfold connectionsInRoom. rewrite elem_of_dom. unfold is_Some.
  setoid_rewrite map_lookup_filter_Some. reflexivity.
Qed.

(** C8, as stated, fails: alice types on device [A]; her other device [B],
    joined to the same room, receives [typing:update]. *)
Lemma typing_reaches_own_other_device :
  let r := on_typing Fixture.live "A" "c1" true in
  userId <$> sockets Fixture.live !! "A" = Some (Some "u1")
  ∧ userId <$> sockets Fixture.live !! "B" = Some (Some "u1")
  ∧ r.2 = [mkEmit (ToRoomExcept "conversation:c1" "A") (typing_update "c1" "u1" true)]
  ∧ recipients (sockets r.1) (ToRoomExcept "conversation:c1" "A") = {[ "B"; "C" ]}.
Proof. cbv zeta. split_and!; vm_compute; reflexivity. Qed.

(** C8 (amended): a typing start or stop emits one [typing:update] to the
    conversation's room without the originating connection: a socket
    receives it exactly when it is joined to the room and is not the
    originating socket itself, whichever user it belongs to.  The state is
    unchanged. *)
Theorem typing_excludes_only_sender st sk s u conversationId isTyping :
  sockets st !! sk = Some s →
  userId s = Some u →
  ∃ e,
    on_typing st sk conversationId isTyping = (st, [e])
    ∧ event e = typing_update conversationId u isTyping
    ∧ ∀ k, k ∈ recipients (sockets st) (target e) ↔
           k ≠ sk ∧ ∃ s', sockets st !! k = Some s' ∧ room_of conversationId ∈ rooms s'.
Proof.
  intros Hs Hu. unfold on_typing. rewrite Hs, Hu.
  eexists. split_and!; [reflexivity | reflexivity |].
  intros k. cbn [target recipients].
  rewrite elem_of_difference, elem_of_singleton, elem_of_connectionsInRoom.
  tauto.
Qed.

Lemma typing_excludes_only_sender_witness :
  ∃ e, on_typing Fixture.live "A" "c1" false = (Fixture.live, [e])
       ∧ event e = typing_update "c1" "u1" false.
Proof.
  destruct (typing_excludes_only_sender Fixture.live "A"
              (mkSocket (Some "u1") {[ room_of "c1" ]}) "u1" "c1" false)
    as (e & H1 & H2 & _).
  - vm_compute. reflexivity.
  - reflexivity.
  - exists e. split; assumption.
Defined.

(** ** Read receipts: [POST /conversations/:id/read] *)

Section MarkRead.






(** The store after [mark_read], spelled out. *)
Lemma mark_read_db io u c t d :
  (mark_read io (Some u) c t d).1.1
  = mkDb (users d) (conversations d)
         (update_where (is_row_of c u) (set_lastReadAt t) (conversationParticipants d))
         (update_where (unread_by_others c u) (set_status read) (messages d)).
Proof. reflexivity. Qed.

End MarkRead.



(** ** Room membership against the participant rows *)

Section RoomMembership.

Lemma participants_kept_same d d' :
  conversationParticipants d' = conversationParticipants d → participants_kept d d'.
Proof. intros H c u. unfold findParticipant. by rewrite H. Qed.

Lemma socket_confirmed_kept d d' s :
  participants_kept d d' → socket_confirmed d s → socket_confirmed d' s.
Proof.
  intros Hk Hs room Hin. destruct (Hs room Hin) as (c & u & -> & Hu & Hp).
  exists c, u. eauto.
Qed.

Lemma rooms_confirmed_kept st d' :
  participants_kept (db st) d' → rooms_confirmed st →
  rooms_confirmed (mkState d' (sockets st)).
Proof.
  intros Hk Hst sk s Hs. eapply socket_confirmed_kept; [exact Hk|].
  exact (Hst sk s Hs).
Qed.

Lemma socket_confirmed_subseteq d u rs rs' :
  rs' ⊆ rs → socket_confirmed d (mkSocket u rs) → socket_confirmed d (mkSocket u rs').
Proof. intros Hsub Hs room Hin. apply (Hs room). cbn in *. set_solver. Qed.

(** The rooms joined on connection come from the user's participant rows. *)
Lemma autojoin_confirmed d u :
  socket_confirmed d
    (mkSocket (Some u)
       (list_to_set ((λ p, room_of (p_conversationId p)) <$> participantsOf d u))).
Proof.
  intros room Hin. cbn in Hin.
  apply elem_of_list_to_set, list_elem_of_fmap in Hin as (p & -> & Hp).
  apply list_elem_of_filter in Hp as [Hu Hp].
  exists (p_conversationId p), u. split_and!; [done | done |].
  apply findParticipant_is_Some. by exists p.
Qed.

Lemma create_conversation_kept uid pids name g cid idgen now d :
  participants_kept d (create_conversation uid pids name g cid idgen now d).1.1.
Proof.
  unfold create_conversation.
  destruct uid as [u|]; [|by apply participants_kept_same].
  destruct pids as [[|x l]|]; [by apply participants_kept_same | |
                                by apply participants_kept_same].
  case_bool_decide as Hfk; [|by apply participants_kept_same].
  intros c v. rewrite !findParticipant_is_Some. intros (p & Hp & Hcv).
  exists p. split; [|done]. cbn. apply elem_of_app. by left.
Qed.

Lemma send_message_kept uid c content mid now d :
  participants_kept d (send_message uid c content mid now d).1.1.
Proof.
  apply participants_kept_same. unfold send_message.
  destruct uid as [u|]; [|done]. destruct (blank content); [done|].
  by destruct (findParticipant d c u).
Qed.

Lemma edit_message_kept uid mid content now d :
  participants_kept d (edit_message uid mid content now d).1.1.
Proof.
  apply participants_kept_same. unfold edit_message.
  destruct uid as [u|]; [|done]. destruct (blank content); [done|].
  destruct (findMessage d mid) as [m|]; [|done].
  by destruct (bool_decide (m_senderId m ≠ u)).
Qed.

Lemma delete_message_kept uid mid d :
  participants_kept d (delete_message uid mid d).1.1.
Proof.
  apply participants_kept_same. unfold delete_message.
  destruct uid as [u|]; [|done].
  destruct (findMessage d mid) as [m|]; [|done].
  by destruct (bool_decide (m_senderId m ≠ u)).
Qed.

Lemma mark_read_kept io uid c now d :
  participants_kept d (mark_read io uid c now d).1.1.
Proof.
  destruct uid as [u|]; [|by apply participants_kept_same].
  rewrite mark_read_db. intros c' u'. rewrite !findParticipant_is_Some.
  intros (p & Hp & Hc & Hu). cbn [conversationParticipants].
  exists (if is_row_of c u p then set_lastReadAt now p else p). split.
  - unfold update_where. apply list_elem_of_fmap. by exists p.
  - by destruct (is_row_of c u p).
Qed.

(** Every operation of the system preserves the invariant. *)
Lemma step_rooms_confirmed io st op :
  rooms_confirmed st → rooms_confirmed (step io st op).1.
Proof.
  intros Hst. destruct op; cbn [step rest fst].
  - (* Connect *)
    unfold on_connection. destruct (sockets st !! sk) eqn:Hs; [done|].
    destruct uid as [u|]; cbn [fst]; apply map_Forall_insert_2.
    + apply autojoin_confirmed.
    + by apply (rooms_confirmed_kept st), Hst; apply participants_kept_same.
    + intros room Hin. cbn in Hin. set_solver.
    + exact Hst.
  - (* Join *)
    unfold on_conversation_join. destruct (sockets st !! sk) as [s|] eqn:Hs; [|done].
    destruct (userId s) as [u|] eqn:Hu; [|done].
    destruct (negb (is_uuid conversationId)); [done|].
    destruct (findParticipant (db st) conversationId u) as [row|] eqn:Hp; [|done].
    cbn [fst]. apply map_Forall_insert_2; [|exact Hst].
    intros room Hin. cbn in Hin. apply elem_of_union in Hin as [Hin | Hin].
    + apply elem_of_singleton in Hin as ->.
      exists conversationId, u. split_and!; [done | done |].
      cbn [db]. by rewrite Hp.
    + destruct (Hst sk s Hs room Hin) as (c' & v & ? & ? & ?).
      exists c', v. cbn. split_and!; [assumption | congruence | assumption].
  - (* Leave *)
    unfold on_conversation_leave. destruct (sockets st !! sk) as [s|] eqn:Hs; [|done].
    cbn [fst]. apply map_Forall_insert_2; [|exact Hst].
    apply (socket_confirmed_subseteq _ _ (rooms s));
      [by apply subseteq_difference_l|].
    specialize (Hst sk s Hs). by destruct s.
  - (* Send *)
    unfold on_message_send. destruct (sockets st !! sk) as [s|]; [|done].
    destruct (userId s) as [u|]; [|done]. destruct (blank content); [done|].
    destruct (findParticipant (db st) conversationId u); [|done].
    by apply (rooms_confirmed_kept st), Hst; apply participants_kept_same.
  - (* Typing *)
    unfold on_typing. destruct (sockets st !! sk) as [s|]; [|done].
    by destruct (userId s).
  - (* Status *)
    unfold on_message_status. destruct (sockets st !! sk) as [s|]; [|done].
    destruct (userId s) as [u|]; [|done].
    match goal with |- context [findMessage ?d ?m] => destruct (findMessage d m) end;
      by apply (rooms_confirmed_kept st), Hst; apply participants_kept_same.
  - (* Disconnect *)
    unfold on_disconnect. destruct (sockets st !! sk) as [s|]; [|done].
    destruct (userId s) as [u|]; cbn [fst]; apply map_Forall_delete.
    + by apply (rooms_confirmed_kept st), Hst; apply participants_kept_same.
    + exact Hst.
  - apply rooms_confirmed_kept, Hst. apply create_conversation_kept.
  - apply rooms_confirmed_kept, Hst. apply send_message_kept.
  - apply rooms_confirmed_kept, Hst. apply edit_message_kept.
  - apply rooms_confirmed_kept, Hst. apply delete_message_kept.
  - apply rooms_confirmed_kept, Hst. apply mark_read_kept.
Qed.

Lemma run_rooms_confirmed io ops : ∀ st,
  rooms_confirmed st → rooms_confirmed (run io st ops).1.
Proof.
  induction ops as [|op ops IH]; intros st Hst; [exact Hst|].
  cbn [run fst]. apply IH. by apply step_rooms_confirmed.
Qed.

End RoomMembership.

(** C5: after any sequence of operations from the start of the server —
    connections with their auto-join, joins, leaves, disconnects, and every
    other socket or REST operation in between — each room recorded for a
    socket is the room of a conversation in which the store holds a
    participant row of the socket's user. *)
Theorem rooms_only_for_participants io d ops sk s room :
  sockets (run io (boot d) ops).1 !! sk = Some s →
  room ∈ rooms s →
  ∃ c u, room = room_of c
         ∧ userId s = Some u
         ∧ is_Some (findParticipant (db (run io (boot d) ops).1) c u).
Proof.
  intros Hs Hin.
  assert (Hinv : rooms_confirmed (run io (boot d) ops).1).
  { apply run_rooms_confirmed. unfold rooms_confirmed, boot. cbn.
    apply map_Forall_empty. }
  exact (Hinv sk s Hs room Hin).
Qed.

Lemma rooms_only_for_participants_witness :
  ∃ c u, "conversation:c1" = room_of c
         ∧ Some "u1" = Some u
         ∧ is_Some (findParticipant (db Fixture.live) c u).
Proof.
  apply (rooms_only_for_participants false Fixture.db0
           [Connect "A" (Some "u1") 5; Connect "B" (Some "u1") 6;
            Connect "C" (Some "u2") 7; Connect "D" (Some "u3") 8]
           "A" (mkSocket (Some "u1") {[ "conversation:c1" ]}) "conversation:c1").
  - vm_compute. reflexivity.
  - vm_compute. reflexivity.
Defined.

(** ** Creating a conversation *)

Section CreateConversation.




End CreateConversation.




(** * Further properties of the handlers *)

(** ** Authentication *)

Section Authentication.

Lemma identity_eta (user : Identity) :
  mkIdentity (i_id user) (i_email user) (i_role user) = user.
Proof. by destruct user. Qed.

Lemma replace_first_bearer (t : string) : replace_first "Bearer " ("Bearer " +:+ t) = t.
Proof. destruct t; reflexivity. Qed.

End Authentication.

(** The REST middleware verifies exactly what follows the prefix
    'Bearer ': the request goes on with the identity the verifier returns
    for it, and is answered 401 'Invalid or expired token' when the verifier
    refuses it. *)
Lemma authenticate_bearer (verify : Verifier) (token : string) :
  authenticate verify (Some ("Bearer " +:+ token))
  = match verify token with
    | Some user => inr user
    | None => inl (mkResponse 401 (b_error "Invalid or expired token"))
    end.
Proof.
  unfold authenticate.
  change (startsWith ("Bearer " +:+ token) "Bearer ") with (String.prefix "" token).
  assert (Hp : String.prefix "" token = true) by (by destruct token).
  rewrite Hp. cbn [negb].
  change (drop_chars 7 ("Bearer " +:+ token)) with token.
  destruct (verify token) as [user|]; [|reflexivity].
  by rewrite identity_eta.
Qed.

(** X1: on a header 'Bearer ' followed by a non-empty token, and no
    [auth.token], the socket handshake and the REST middleware decide
    alike: both refuse, or both accept and attach the same user id and
    email. *)
Theorem socket_and_rest_agree_on_bearer (verify : Verifier) (token : string) :
  token ≠ "" →
  match socket_auth verify (mkHandshake None (Some ("Bearer " +:+ token))),
        authenticate verify (Some ("Bearer " +:+ token)) with
  | inr (uid, email), inr user => uid = i_id user ∧ email = i_email user
  | inl _, inl _ => True
  | _, _ => False
  end.
Proof.
  intros Hne. rewrite authenticate_bearer. unfold socket_auth.
  cbn [auth_token authorization or_else fmap option_fmap option_map].
  rewrite replace_first_bearer.
  destruct token as [|a t]; [done|].
  by destruct (verify (String a t)).
Qed.

Lemma socket_and_rest_agree_on_bearer_witness :
  match socket_auth AuthFixture.verify0 (mkHandshake None (Some "Bearer tok-alice")),
        authenticate AuthFixture.verify0 (Some "Bearer tok-alice") with
  | inr (uid, email), inr user => uid = i_id user ∧ email = i_email user
  | inl _, inl _ => True
  | _, _ => False
  end.
Proof.
  apply (socket_and_rest_agree_on_bearer AuthFixture.verify0 "tok-alice").
  discriminate.
Defined.

(** ** [syncUserToDatabase] *)

Section SyncUser.

Lemma find_app_l {A} (w : A → bool) (l l' : list A) x :
  List.find w l = Some x → List.find w (l ++ l') = Some x.
Proof.
  induction l as [|a l IH]; cbn; [done|].
  destruct (w a); [done | exact IH].
Qed.

Lemma find_app_r {A} (w : A → bool) (l l' : list A) :
  List.find w l = None → List.find w (l ++ l') = List.find w l'.
Proof.
  induction l as [|a l IH]; cbn; [done|].
  destruct (w a); [done | exact IH].
Qed.

Lemma find_None_not_elem_of {A B} `{EqDecision B} (key : A → B) (k : B) (l : list A) :
  List.find (λ r, bool_decide (key r = k)) l = None → k ∉ key <$> l.
Proof.
  induction l as [|a l IH]; cbn; [intros _; apply not_elem_of_nil|].
  case_bool_decide as Hk; [done|]. intros Hf.
  rewrite not_elem_of_cons. split; [congruence | by apply IH].
Qed.

(** The row a first sync inserts. *)
Lemma syncUserToDatabase_fresh userId email username now d :
  findUser d userId = None →
  findUserByEmail d email = None →
  (syncUserToDatabase userId email username now d).1
  = with_users
      (λ us, (us ++ [mkUser userId email
                       (or_else username (Some (before_char "@" email)))
                       None false None now now])%list) d.
Proof. intros H1 H2. unfold syncUserToDatabase. by rewrite H1, H2. Qed.

End SyncUser.

(** X2: a user synced for the first time is found afterwards, by id and by
    email, as a row with the given id and email, offline, never seen, and
    named by [username] or, when that is missing or empty, by what precedes
    the first '@' of the email. *)
Theorem sync_then_find userId email username now d :
  findUser d userId = None →
  findUserByEmail d email = None →
  let row := mkUser userId email (or_else username (Some (before_char "@" email)))
                    None false None now now in
  let d' := (syncUserToDatabase userId email username now d).1 in
  findUser d' userId = Some row ∧ findUserByEmail d' email = Some row.
Proof.
  intros H1 H2 row d'. subst d'.
  rewrite (syncUserToDatabase_fresh _ _ _ _ _ H1 H2).
  unfold findUser, findUserByEmail in *. cbn [with_users users].
  rewrite !find_app_r by assumption. cbn.
  by rewrite !bool_decide_eq_true_2.
Qed.

Lemma sync_then_find_witness :
  findUser (syncUserToDatabase "u4" "dave@example.org" None 9 Fixture.db0).1 "u4"
  = Some (mkUser "u4" "dave@example.org" (Some "dave") None false None 9 9).
Proof.
  apply (sync_then_find "u4" "dave@example.org" None 9 Fixture.db0); reflexivity.
Defined.

(** X3: [syncUserToDatabase] is idempotent: a second sync of the same id
    and email, with whatever username and clock reading, changes nothing. *)
Theorem sync_twice userId email username username' now now' d :
  let d' := (syncUserToDatabase userId email username now d).1 in
  syncUserToDatabase userId email username' now' d' = (d', true).
Proof.
  intros d'. subst d'.
  destruct (findUser d userId) as [r|] eqn:H1.
  { unfold syncUserToDatabase. rewrite H1. cbn [fst]. by rewrite H1. }
  destruct (findUserByEmail d email) as [r|] eqn:H2.
  { unfold syncUserToDatabase. rewrite H1, H2. cbn [fst]. by rewrite H1, H2. }
  rewrite (syncUserToDatabase_fresh _ _ _ _ _ H1 H2).
  unfold syncUserToDatabase, findUser in *. cbn [with_users users].
  rewrite (find_app_r _ _ _ H1). cbn. by rewrite bool_decide_eq_true_2.
Qed.

(** X4: [syncUserToDatabase] keeps ids and emails unique: when no two user
    rows share an id and no two share an email, the same holds after the
    call, and the rows that were there are still there, unchanged and in
    the same order. *)
Theorem sync_keeps_users_unique userId email username now d :
  NoDup (u_id <$> users d) →
  NoDup (u_email <$> users d) →
  let d' := (syncUserToDatabase userId email username now d).1 in
  NoDup (u_id <$> users d')
  ∧ NoDup (u_email <$> users d')
  ∧ (∃ new, users d' = (users d ++ new)%list ∧ (length new ≤ 1)%nat).
Proof.
  intros Hid Hem d'. subst d'.
  destruct (findUser d userId) as [r|] eqn:H1.
  { unfold syncUserToDatabase. rewrite H1. split_and!; [done | done |].
    exists []. split; [by rewrite app_nil_r | cbn; lia]. }
  destruct (findUserByEmail d email) as [r|] eqn:H2.
  { unfold syncUserToDatabase. rewrite H1, H2. split_and!; [done | done |].
    exists []. split; [by rewrite app_nil_r | cbn; lia]. }
  rewrite (syncUserToDatabase_fresh _ _ _ _ _ H1 H2). cbn [with_users users].
  rewrite !fmap_app. cbn [fmap list_fmap u_id u_email].
  split_and!.
  - apply NoDup_app. split_and!; [done | | apply NoDup_singleton].
    intros x Hx Hy. apply list_elem_of_singleton in Hy as ->.
    by apply (find_None_not_elem_of u_id userId (users d)) in H1.
  - apply NoDup_app. split_and!; [done | | apply NoDup_singleton].
    intros x Hx Hy. apply list_elem_of_singleton in Hy as ->.
    by apply (find_None_not_elem_of u_email email (users d)) in H2.
  - eexists. split; [reflexivity | cbn; lia].
Qed.

Lemma sync_keeps_users_unique_witness :
  NoDup (u_id <$> users (syncUserToDatabase "u4" "dave@example.org" None 9 Fixture.db0).1).
Proof.
  apply (sync_keeps_users_unique "u4" "dave@example.org" None 9 Fixture.db0).
  - apply (bool_decide_unpack _). vm_compute. exact I.
  - apply (bool_decide_unpack _). vm_compute. exact I.
Defined.

(** ** The chat router *)

Section ChatRouter.

Lemma authenticate_refusal_code verify h response :
  authenticate verify h = inl response → code response = 401%nat.
Proof.
  unfold authenticate. destruct h as [h|]; [|by intros [= <-]].
  destruct (negb (startsWith h "Bearer ")); [by intros [= <-]|].
  destruct (verify (drop_chars 7 h)); [done | by intros [= <-]].
Qed.

(** With a user id, no handler answers 401. *)
Lemma dispatch_code io u rq e d : code (dispatch io (Some u) rq e d).1.2 ≠ 401%nat.
Proof.
  destruct rq; cbn [dispatch].
  - unfold create_conversation. destruct participantIds as [[|? ?]|]; [done | | done].
    by case_bool_decide.
  - unfold send_message. destruct (blank content); [done|].
    by destruct (findParticipant d conversationId u).
  - unfold edit_message. destruct (blank content); [done|].
    destruct (findMessage d messageId) as [m|]; [|done].
    by destruct (bool_decide (m_senderId m ≠ u)).
  - unfold delete_message.
    destruct (findMessage d messageId) as [m|]; [|done].
    by destruct (bool_decide (m_senderId m ≠ u)).
  - done.
Qed.

End ChatRouter.

(** X5: a request to a mutating chat route is answered 401 exactly when
    [authenticate] refuses its authorization header, and then the store is
    unchanged and nothing is emitted: the 'Unauthorized' branch of the
    handlers is never taken behind the router. *)
Theorem chat_router_unauthorized verify io h rq e d :
  let r := chat_router verify io h rq e d in
  (code r.1.2 = 401%nat ↔ ∃ response, authenticate verify h = inl response)
  ∧ (code r.1.2 = 401%nat → r.1.1 = d ∧ r.2 = []).
Proof.
  intros r. subst r. unfold chat_router.
  destruct (authenticate verify h) as [response | user] eqn:Ha; cbn [fst snd].
  - pose proof (authenticate_refusal_code _ _ _ Ha). split; [|done].
    split; [by exists response | done].
  - pose proof (dispatch_code io (i_id user) rq e d) as Hc. split; [|done].
    split; [done | by intros [? [=]]].
Qed.

(** ** Joining and leaving rooms *)

Section Rooms.

Lemma room_of_inj c c' : room_of c = room_of c' → c = c'.
Proof. unfold room_of. apply (inj (String.app "conversation:")). Qed.

Lemma ex_Some_eq {A} (a : A) (P : A → Prop) : (∃ x, Some a = Some x ∧ P x) ↔ P a.
Proof. split; [by intros (x & [= <-] & H) | eauto]. Qed.

(** Room membership after [conversation:leave]. *)
Lemma leave_membership st sk s c :
  sockets st !! sk = Some s →
  let r := on_conversation_leave st sk c in
  (sk ∉ connectionsInRoom (sockets r.1) (room_of c))
  ∧ (∀ k room, k ≠ sk ∨ room ≠ room_of c →
       (k ∈ connectionsInRoom (sockets r.1) room
        ↔ k ∈ connectionsInRoom (sockets st) room))
  ∧ db r.1 = db st.
Proof.
  intros Hs r. subst r. unfold on_conversation_leave. rewrite Hs. cbn [fst sockets db].
  split_and!; [| |reflexivity].
  - rewrite elem_of_connectionsInRoom, lookup_insert_eq, ex_Some_eq. cbn [rooms].
    rewrite elem_of_difference, elem_of_singleton. tauto.
  - intros k room Hne. rewrite !elem_of_connectionsInRoom.
    destruct (decide (k = sk)) as [->|Hk]; [|by rewrite lookup_insert_ne].
    rewrite lookup_insert_eq, Hs, !ex_Some_eq. cbn [rooms].
    rewrite elem_of_difference, elem_of_singleton. tauto.
Qed.

End Rooms.

(** X6: a handshake the middleware accepts, on a fresh socket id, leaves a
    socket carrying the verified user id and joined to the room of a
    conversation exactly when the store holds a participant row of that
    user for it. *)
Theorem handshake_autojoin verify st sk h now u email :
  socket_auth verify h = inr (u, email) →
  sockets st !! sk = None →
  let r := handshake_connection verify st sk h now in
  ∃ s, sockets r.1 !! sk = Some s
       ∧ userId s = Some u
       ∧ (∀ c, room_of c ∈ rooms s ↔ is_Some (findParticipant (db st) c u))
       ∧ r.2 = [mkEmit ToAll (user_online u)].
Proof.
  intros Ha Hs r. subst r. unfold handshake_connection, on_connection.
  rewrite Ha, Hs. cbn [fst snd sockets].
  eexists. rewrite lookup_insert_eq. split_and!; [reflexivity | reflexivity | | reflexivity].
  intros c. cbn [rooms]. rewrite elem_of_list_to_set, list_elem_of_fmap.
  rewrite findParticipant_is_Some. split.
  - intros (p & Hc & Hp). apply list_elem_of_filter in Hp as [Hu Hp].
    apply room_of_inj in Hc. by exists p.
  - intros (p & Hp & Hc & Hu). exists p. split; [by rewrite Hc|].
    apply list_elem_of_filter. by split.
Qed.

Lemma handshake_autojoin_witness :
  ∃ s, sockets (handshake_connection AuthFixture.verify0 (boot Fixture.db0) "A"
                  (mkHandshake (Some "tok-alice") None) 5).1 !! "A" = Some s
       ∧ userId s = Some "u1"
       ∧ (room_of "c1" ∈ rooms s ↔ is_Some (findParticipant Fixture.db0 "c1" "u1")).
Proof.
  destruct (handshake_autojoin AuthFixture.verify0 (boot Fixture.db0) "A"
              (mkHandshake (Some "tok-alice") None) 5 "u1" "alice@example.org")
    as (s & H1 & H2 & H3 & _).
  - reflexivity.
  - reflexivity.
  - exists s. split_and!; [exact H1 | exact H2 | exact (H3 "c1")].
Defined.

(** What the uuid type accepts: the spelling the store prints, upper case,
    braces, hyphens left out or put after any group of four digits; and what
    it refuses. *)
Lemma is_uuid_examples :
  is_uuid "a0eebc99-9c0b-4ef8-bb6d-6bb9bd380a11" = true
  ∧ is_uuid "A0EEBC99-9C0B-4EF8-BB6D-6BB9BD380A11" = true
  ∧ is_uuid "{a0eebc99-9c0b-4ef8-bb6d-6bb9bd380a11}" = true
  ∧ is_uuid "a0eebc999c0b4ef8bb6d6bb9bd380a11" = true
  ∧ is_uuid "a0ee-bc99-9c0b-4ef8-bb6d-6bb9-bd38-0a11" = true
  ∧ is_uuid "{a0eebc99-9c0b4ef8-bb6d6bb9-bd380a11}" = true
  ∧ is_uuid "not-a-uuid" = false
  ∧ is_uuid "" = false
  ∧ is_uuid "a0eebc99-9c0b-4ef8-bb6d-6bb9bd380a1" = false
  ∧ is_uuid "a0eebc99-9c0b-4ef8-bb6d-6bb9bd380a11 " = false
  ∧ is_uuid "a0eebc99-9c0b-4ef8-bb6d-6bb9bd380a11-" = false
  ∧ is_uuid "a-0eebc99-9c0b-4ef8-bb6d-6bb9bd380a11" = false
  ∧ is_uuid "{a0eebc99-9c0b-4ef8-bb6d-6bb9bd380a11" = false
  ∧ is_uuid "g0eebc99-9c0b-4ef8-bb6d-6bb9bd380a11" = false.
Proof. split_and!; reflexivity. Qed.

(** X7: a [conversation:join] carrying a text the store's uuid type
    refuses changes nothing and is answered with the error 'Failed to join
    conversation', to the requester alone.  For the id of a conversation
    of the store, the socket is in the conversation's room afterwards
    exactly when it was joined already or the store holds a participant row
    of its user; no other membership and nothing in the store changes; and
    without a participant row the request is dropped in silence: same
    state, no event, not even an error. *)
Theorem join_membership st sk s u c :
  sockets st !! sk = Some s →
  userId s = Some u →
  let r := on_conversation_join st sk c in
  (is_uuid c = false →
     r = (st, [mkEmit (ToSocket sk) (error "Failed to join conversation")]))
  ∧ (is_uuid c = true →
     is_Some (findConversation (db st) c) →
     (sk ∈ connectionsInRoom (sockets r.1) (room_of c)
        ↔ room_of c ∈ rooms s ∨ is_Some (findParticipant (db st) c u))
     ∧ (∀ k room, k ≠ sk ∨ room ≠ room_of c →
          (k ∈ connectionsInRoom (sockets r.1) room
           ↔ k ∈ connectionsInRoom (sockets st) room))
     ∧ db r.1 = db st
     ∧ (findParticipant (db st) c u = None → r = (st, []))).
Proof.
  intros Hs Hu r. subst r. unfold on_conversation_join. rewrite Hs, Hu.
  split; [by intros -> | intros -> _]. cbn [negb].
  destruct (findParticipant (db st) c u) as [row|] eqn:Hp; cbn [fst sockets db].
  - split_and!; [| |reflexivity|done].
    + rewrite elem_of_connectionsInRoom, lookup_insert_eq, ex_Some_eq. cbn [rooms].
      rewrite elem_of_union, elem_of_singleton. split; [eauto | by left].
    + intros k room Hne. rewrite !elem_of_connectionsInRoom.
      destruct (decide (k = sk)) as [->|Hk]; [|by rewrite lookup_insert_ne].
      rewrite lookup_insert_eq, Hs, !ex_Some_eq. cbn [rooms].
      rewrite elem_of_union, elem_of_singleton. tauto.
  - split_and!; [| done | reflexivity | done].
    rewrite elem_of_connectionsInRoom, Hs, ex_Some_eq.
    split; [by left | by intros [? | [? [=]]]].
Qed.

(** erin is no participant of dana's conversation: her join is dropped in
    silence; a join with a text that is no uuid is answered with the
    error. *)
Lemma join_membership_witness :
  on_conversation_join AuthFixture.live2 "B" "not-a-uuid"
  = (AuthFixture.live2, [mkEmit (ToSocket "B") (error "Failed to join conversation")])
  ∧ on_conversation_join AuthFixture.live2 "B" AuthFixture.talk_id
    = (AuthFixture.live2, []).
Proof.
  split.
  - eapply (join_membership AuthFixture.live2 "B" _ AuthFixture.erin_id "not-a-uuid").
    + vm_compute. reflexivity.
    + reflexivity.
    + reflexivity.
  - eapply (join_membership AuthFixture.live2 "B" _ AuthFixture.erin_id
              AuthFixture.talk_id).
    + vm_compute. reflexivity.
    + reflexivity.
    + reflexivity.
    + by eexists.
    + reflexivity.
Defined.

(** ** Who receives a sent message *)



(** X9: once a socket has left a conversation's room, a later
    [message:send] to that conversation, from any socket, delivers nothing
    to it but an [error] addressed to itself: it misses [message:new] and
    [conversation:update] although its user is still a participant, and it
    misses them for its own messages too. *)
Theorem left_socket_misses_messages st sk s c sk2 content mid now e :
  sockets st !! sk = Some s →
  let st1 := (on_conversation_leave st sk c).1 in
  let r := on_message_send st1 sk2 c content mid now in
  e ∈ r.2 →
  sk ∈ recipients (sockets r.1) (target e) →
  target e = ToSocket sk ∧ ∃ msg, event e = error msg.
Proof.
  intros Hs st1 r He Hin.
  destruct (leave_membership st sk s c Hs) as (Hout & _ & _).
  cbv zeta in Hout. fold st1 in Hout.
  subst r. unfold on_message_send in *.
  destruct (sockets st1 !! sk2) as [s2|]; [|by apply elem_of_nil in He].
  destruct (userId s2) as [u|]; [|by apply elem_of_nil in He].
  destruct (blank content).
  { apply list_elem_of_singleton in He as ->. cbn in Hin.
    apply elem_of_singleton in Hin as ->. eauto. }
  destruct (findParticipant (db st1) c u).
  - cbn [fst snd sockets] in *.
    apply elem_of_cons in He as [-> | He];
      [|apply list_elem_of_singleton in He as ->]; cbn in Hin; done.
  - apply list_elem_of_singleton in He as ->. cbn in Hin.
    apply elem_of_singleton in Hin as ->. eauto.
Qed.

Lemma left_socket_misses_messages_witness :
  "B" ∉ recipients
          (sockets (on_message_send (on_conversation_leave Fixture.live "B" "c1").1
                      "A" "c1" "hi" "m2" 50).1)
          (ToRoom (room_of "c1")).
Proof.
  intros Hin.
  destruct (left_socket_misses_messages Fixture.live "B"
              (mkSocket (Some "u1") {[ room_of "c1" ]}) "c1" "A" "hi" "m2" 50
              (mkEmit (ToRoom (room_of "c1"))
                 (message_new (new_message "m2" "c1" "u1" "hi" 50)
                    (Some (mkUser "u1" "alice@example.org" None None true (Some 6) 0 0)))))
    as [Ht _].
  - vm_compute. reflexivity.
  - vm_compute. left.
  - exact Hin.
  - discriminate Ht.
Defined.

(** ** Status requests for an unknown message *)

Section UnknownMessage.

Lemma update_where_no_match {A} (w : A → bool) (f : A → A) (rows : list A) :
  List.find w rows = None → update_where w f rows = rows.
Proof.
  unfold update_where. induction rows as [|r rows IH]; cbn; [done|].
  destruct (w r); [done|]. intros H. by rewrite IH.
Qed.

End UnknownMessage.

(** X10: a [message:status] for a message id the store does not know
    changes nothing and emits nothing: no row is touched, no broadcast, no
    error to the requester. *)
Theorem status_request_unknown_message st sk messageId req :
  findMessage (db st) messageId = None →
  on_message_status st sk messageId req = (st, []).
Proof.
  intros Hm. unfold on_message_status.
  destruct (sockets st !! sk) as [s|]; [|done].
  destruct (userId s) as [u|]; [|done].
  rewrite findMessage_set_status, Hm. cbn [fmap option_fmap option_map].
  unfold findMessage in Hm. unfold with_messages.
  rewrite (update_where_no_match _ _ _ Hm). by destruct st as [[] ?].
Qed.

Lemma status_request_unknown_message_witness :
  on_message_status Fixture.live "C" "m404" req_read = (Fixture.live, []).
Proof.
  apply (status_request_unknown_message Fixture.live "C" "m404" req_read).
  reflexivity.
Defined.

(** ** Unread counts: [GET /chat/conversations] *)

Section Unread.

(** The query and the filter on its rows amount to one condition: the
    message is of the conversation, not from the caller, and created after
    [lastReadAt] when the row has one. *)
Lemma unreadCount_filter d u cp :
  unreadCount d u cp
  = length (filter (λ m, m_conversationId m = p_conversationId cp
                         ∧ m_senderId m ≠ u
                         ∧ created_after (p_lastReadAt cp) m = true)
                   (messages d)).
Proof.
  unfold unreadCount. rewrite list_filter_filter. f_equal.
  apply list_filter_iff. intros m. unfold created_after.
  destruct (p_lastReadAt cp) as [t|];
    rewrite ?andb_true_iff, ?bool_decide_eq_true; tauto.
Qed.




End Unread.

(** X11: once a user has marked a conversation as read at a time no
    message of the conversation was created after, [GET /chat/conversations]
    reports an unread count of zero for each of the user's participant rows
    of that conversation. *)
Theorem unread_zero_after_mark_read io u c now d :
  (∀ m, m ∈ messages d → m_conversationId m = c → m_createdAt m ≤ now) →
  let d' := (mark_read io (Some u) c now d).1.1 in
  ∃ l, get_conversations (Some u) d' = (200%nat, inr l)
       ∧ ∀ cp n, (cp, n) ∈ l → p_conversationId cp = c → n = 0%nat.
Proof.
  intros Hnow d'. eexists. split; [reflexivity|].
  intros cp n Hin Hc. apply list_elem_of_fmap in Hin as (cp' & [= <- ->] & Hcp).
  apply list_elem_of_filter in Hcp as [Hu Hcp].
  subst d'. rewrite mark_read_db in *. cbn [conversationParticipants] in Hcp.
  apply list_elem_of_fmap in Hcp as (p & -> & Hp).
  assert (Hrow : is_row_of c u p = true).
  { destruct (is_row_of c u p) eqn:E; [done|]. unfold is_row_of in E.
    by rewrite !bool_decide_eq_true_2 in E. }
  rewrite Hrow in *. cbn [set_lastReadAt p_lastReadAt p_conversationId] in *.
  rewrite unreadCount_filter. cbn [messages p_lastReadAt p_conversationId set_lastReadAt].
  apply length_zero_iff_nil, elem_of_nil_inv. intros m Hm.
  apply list_elem_of_filter in Hm as [(Hmc & _ & Hafter) Hm].
  apply list_elem_of_fmap in Hm as (m0 & -> & Hm0).
  assert (m_createdAt m0 ≤ now).
  { apply Hnow; [done|]. rewrite <- Hc, <- Hmc.
    by destruct (unread_by_others c u m0). }
  unfold created_after in Hafter. apply Z.ltb_lt in Hafter.
  destruct (unread_by_others c u m0); cbn in Hafter; lia.
Qed.

Lemma unread_zero_after_mark_read_witness :
  ∃ l, get_conversations (Some "u1")
         (mark_read false (Some "u1") "c1" 50 AuthFixture.db1).1.1 = (200%nat, inr l)
       ∧ ∀ cp n, (cp, n) ∈ l → p_conversationId cp = "c1" → n = 0%nat.
Proof.
  apply (unread_zero_after_mark_read false "u1" "c1" 50 AuthFixture.db1).
  intros m Hm _. vm_compute in Hm.
  repeat (apply elem_of_cons in Hm as [-> | Hm]; [cbn; lia|]).
  by apply elem_of_nil in Hm.
Defined.



(** ** The content of stored messages *)

Section Content.

(** [trimStart] and [all_ws] step over one white-space character. *)
Lemma trimStart_eq s :
  trimStart s = match ws_head s with Some r => trimStart r | None => s end.
Proof.
  destruct s as [|a [|b [|c s3]]]; cbn; [done|..].
  - by destruct (is_ws1 a).
  - destruct (is_ws1 a); [done|]. by destruct (is_ws2 a b).
  - destruct (is_ws1 a); [done|]. destruct (is_ws2 a b); [done|].
    by destruct (is_ws3 a b c).
Qed.

Lemma all_ws_eq s :
  all_ws s = match s with
             | EmptyString => true
             | _ => match ws_head s with Some r => all_ws r | None => false end
             end.
Proof.
  destruct s as [|a [|b [|c s3]]]; cbn; [done|..].
  - by destruct (is_ws1 a).
  - destruct (is_ws1 a); [done|]. by destruct (is_ws2 a b).
  - destruct (is_ws1 a); [done|]. destruct (is_ws2 a b); [done|].
    by destruct (is_ws3 a b c).
Qed.

Lemma ws_head_length s r : ws_head s = Some r → (String.length r < String.length s)%nat.
Proof.
  destruct s as [|a [|b [|c s3]]]; cbn; [done|..].
  - destruct (is_ws1 a); [|done]. intros [= <-]. cbn. lia.
  - destruct (is_ws1 a); [intros [= <-]; cbn; lia|].
    destruct (is_ws2 a b); [|done]. intros [= <-]. cbn. lia.
  - destruct (is_ws1 a); [intros [= <-]; cbn; lia|].
    destruct (is_ws2 a b); [intros [= <-]; cbn; lia|].
    destruct (is_ws3 a b c); [|done]. intros [= <-]. cbn. lia.
Qed.

Lemma ws_head_app s r w : ws_head s = Some r → ws_head (s +:+ w) = Some (r +:+ w).
Proof.
  destruct s as [|a [|b [|c s3]]]; [done|..];
    lazy beta iota zeta delta [String.append ws_head].
  - destruct (is_ws1 a); [|done]. by intros [= <-].
  - destruct (is_ws1 a); [by intros [= <-]|].
    destruct (is_ws2 a b); [|done]. by intros [= <-].
  - destruct (is_ws1 a); [by intros [= <-]|].
    destruct (is_ws2 a b); [by intros [= <-]|].
    destruct (is_ws3 a b c); [|done]. by intros [= <-].
Qed.

Lemma ws_head_prefix_None p q : ws_head (p +:+ q) = None → p ≠ "" → ws_head p = None.
Proof.
  destruct p as [|a [|b [|c p3]]]; [done|..];
    lazy beta iota zeta delta [String.append ws_head]; intros H _.
  - by destruct (is_ws1 a).
  - destruct (is_ws1 a); [done|]. by destruct (is_ws2 a b).
  - destruct (is_ws1 a); [done|]. destruct (is_ws2 a b); [done|].
    by destruct (is_ws3 a b c).
Qed.

Lemma string_length_ind (P : string → Prop) :
  (∀ s, (∀ r, (String.length r < String.length s)%nat → P r) → P s) → ∀ s, P s.
Proof.
  intros H s. remember (String.length s) as n eqn:Hn.
  revert s Hn. induction (lt_wf n) as [n _ IH]. intros s ->.
  apply H. intros r Hr. by apply (IH (String.length r)).
Qed.

Lemma trimStart_ws_head s : ws_head (trimStart s) = None.
Proof.
  induction s as [s IH] using string_length_ind.
  rewrite trimStart_eq. destruct (ws_head s) as [r|] eqn:E; [|done].
  apply IH. by apply ws_head_length.
Qed.

Lemma all_ws_app p w : all_ws p = true → all_ws (p +:+ w) = all_ws w.
Proof.
  induction p as [p IH] using string_length_ind. intros Hp.
  destruct p as [|a p1]; [done|].
  rewrite all_ws_eq in Hp. rewrite (all_ws_eq (String a p1 +:+ w)).
  destruct (ws_head (String a p1)) as [r|] eqn:E; [|done].
  change (String a p1 +:+ w) with (String a (p1 +:+ w)) in *.
  change (String a (p1 +:+ w)) with (String a p1 +:+ w).
  rewrite (ws_head_app _ _ w E). cbn -[ws_head]. 
  apply IH; [by apply ws_head_length | done].
Qed.

Lemma trimEnd_split s : ∃ w, s = trimEnd s +:+ w ∧ all_ws w = true.
Proof.
  induction s as [|a s IH]; [by exists ""|].
  cbn [trimEnd]. destruct (all_ws (String a s)) eqn:E.
  - by exists (String a s).
  - destruct IH as (w & Hs & Hw). exists w. split; [|done].
    change (String a s = String a (trimEnd s +:+ w)). by rewrite <- Hs.
Qed.

Lemma all_ws_trimEnd s : all_ws (trimEnd s) = true → all_ws s = true.
Proof.
  intros H. destruct (trimEnd_split s) as (w & Hs & Hw).
  rewrite Hs. by rewrite all_ws_app.
Qed.

Lemma trimEnd_idem s : trimEnd (trimEnd s) = trimEnd s.
Proof.
  induction s as [|a s IH]; [done|].
  cbn [trimEnd]. destruct (all_ws (String a s)) eqn:E; [done|].
  cbn [trimEnd]. rewrite IH.
  destruct (all_ws (String a (trimEnd s))) eqn:E'; [|done].
  assert (all_ws (trimEnd (String a s)) = true) as H.
  { cbn [trimEnd]. by rewrite E. }
  apply all_ws_trimEnd in H. congruence.
Qed.

Lemma trimStart_trimEnd t : ws_head t = None → trimStart (trimEnd t) = trimEnd t.
Proof.
  intros H. rewrite trimStart_eq.
  destruct (trimEnd_split t) as (w & Ht & _).
  destruct (trimEnd t) as [|a p] eqn:E; [done|].
  rewrite Ht in H. by rewrite (ws_head_prefix_None _ _ H).
Qed.

(** [trim] is idempotent. *)
Lemma trim_idem s : trim (trim s) = trim s.
Proof.
  unfold trim. rewrite trimStart_trimEnd by apply trimStart_ws_head.
  apply trimEnd_idem.
Qed.

Lemma content_normal_trim content (m : Message) :
  blank content = false → m_content m = trim content → content_normal m.
Proof.
  intros Hb Hm. unfold content_normal. rewrite Hm. split; [|apply trim_idem].
  unfold blank in Hb. by apply bool_decide_eq_false in Hb.
Qed.

Lemma Forall_update_where {A} (P : A → Prop) (w : A → bool) (f : A → A) rows :
  (∀ r, P r → P (f r)) → Forall P rows → Forall P (update_where w f rows).
Proof.
  intros Hf H. unfold update_where. apply Forall_fmap.
  eapply Forall_impl; [exact H|]. intros r Hr. cbn. destruct (w r); auto.
Qed.

Lemma Forall_delete_where {A} (P : A → Prop) (w : A → bool) rows :
  Forall P rows → Forall P (delete_where w rows).
Proof.
  rewrite !Forall_forall. intros H r Hr.
  apply list_elem_of_filter in Hr as [_ Hr]. auto.
Qed.

Lemma step_content_normal io st op :
  Forall content_normal (messages (db st)) →
  Forall content_normal (messages (db (step io st op).1)).
Proof.
  intros H. destruct op; cbn [step rest fst db].
  - unfold on_connection. destruct (sockets st !! sk); [done|]. by destruct uid.
  - unfold on_conversation_join. destruct (sockets st !! sk) as [s|]; [|done].
    destruct (userId s) as [u|]; [|done].
    destruct (negb (is_uuid conversationId)); [done|].
    by destruct (findParticipant (db st) conversationId u).
  - unfold on_conversation_leave. by destruct (sockets st !! sk).
  - unfold on_message_send. destruct (sockets st !! sk) as [s|]; [|done].
    destruct (userId s) as [u|]; [|done]. destruct (blank content) eqn:Hb; [done|].
    destruct (findParticipant (db st) conversationId u); [|done].
    cbn. apply Forall_app. split; [done|]. apply Forall_singleton.
    by apply (content_normal_trim content).
  - unfold on_typing. destruct (sockets st !! sk) as [s|]; [|done].
    by destruct (userId s).
  - unfold on_message_status. destruct (sockets st !! sk) as [s|]; [|done].
    destruct (userId s) as [u|]; [|done].
    match goal with |- context [findMessage ?d ?m] => destruct (findMessage d m) end;
      cbn; by apply Forall_update_where.
  - unfold on_disconnect. destruct (sockets st !! sk) as [s|]; [|done].
    by destruct (userId s).
  - unfold create_conversation. destruct uid; [|done].
    destruct participantIds as [[|? ?]|]; [done | | done].
    by case_bool_decide.
  - unfold send_message. destruct uid as [u|]; [|done].
    destruct (blank content) eqn:Hb; [done|].
    destruct (findParticipant (db st) conversationId u); [|done].
    cbn. apply Forall_app. split; [done|]. apply Forall_singleton.
    by apply (content_normal_trim content).
  - unfold edit_message. destruct uid as [u|]; [|done].
    destruct (blank content) eqn:Hb; [done|].
    destruct (findMessage (db st) messageId) as [m|]; [|done].
    destruct (bool_decide (m_senderId m ≠ u)); [done|].
    cbn. apply Forall_update_where; [|done].
    intros r _. by apply (content_normal_trim content).
  - unfold delete_message. destruct uid as [u|]; [|done].
    destruct (findMessage (db st) messageId) as [m|]; [|done].
    destruct (bool_decide (m_senderId m ≠ u)); [done|].
    cbn. by apply Forall_delete_where.
  - destruct uid as [u|]; [|done]. rewrite mark_read_db. cbn.
    by apply Forall_update_where.
Qed.

End Content.

(** X13: no operation stores a blank or untrimmed content.  When every
    message of the store at start has a non-empty content without white
    space at either end, so has every message after any sequence of socket
    and REST operations: sends and edits store the trimmed content and
    refuse a blank one. *)
Theorem stored_content_normal io d ops :
  Forall content_normal (messages d) →
  Forall content_normal (messages (db (run io (boot d) ops).1)).
Proof.
  intros H. change (messages d) with (messages (db (boot d))) in H.
  generalize dependent (boot d). induction ops as [|op ops IH]; intros st H; [done|].
  cbn [run fst]. apply IH. by apply step_content_normal.
Qed.

Lemma stored_content_normal_witness :
  Forall content_normal
    (messages (db (run false (boot Fixture.db0)
                     [Connect "A" (Some "u1") 5;
                      Send "A" "c1" "  hello  " "m2" 6;
                      RestEdit (Some "u1") "m2" " bye " 7]).1)).
Proof.
  apply (stored_content_normal false Fixture.db0).
  apply Forall_singleton. split; [discriminate | reflexivity].
Defined.

(** ** Editing and deleting one's own message *)

Section OwnMessage.


Lemma find_delete_where {A} (w : A → bool) (rows : list A) :
  List.find w (delete_where w rows) = None.
Proof.
  unfold delete_where. induction rows as [|r rows IH]; [done|].
  rewrite filter_cons. destruct (w r) eqn:E.
  - by rewrite decide_False.
  - rewrite decide_True by done. cbn. by rewrite E.
Qed.

Lemma find_delete_where_other {A} (w w' : A → bool) (rows : list A) :
  (∀ r, w r = true → w' r = false) →
  List.find w' (delete_where w rows) = List.find w' rows.
Proof.
  intros Hw. unfold delete_where. induction rows as [|r rows IH]; [done|].
  rewrite filter_cons. destruct (w r) eqn:E.
  - rewrite decide_False by done. cbn. by rewrite (Hw r E).
  - rewrite decide_True by done. cbn. by rewrite IH.
Qed.


Lemma has_id_other mid mid' (m : Message) :
  mid' ≠ mid → has_id mid m = true → has_id mid' m = false.
Proof.
  unfold has_id. intros Hne H. apply bool_decide_eq_true in H.
  apply bool_decide_eq_false. congruence.
Qed.

End OwnMessage.



(** X15: a delete by the sender is answered 200 and takes the message out
    of the store: a lookup of its id finds nothing, lookups of other ids
    are as before, and a second delete, or an edit, of the same id is
    answered 404 and changes nothing. *)
Theorem delete_by_sender u messageId d m :
  findMessage d messageId = Some m →
  m_senderId m = u →
  let r := delete_message (Some u) messageId d in
  code r.1.2 = 200%nat
  ∧ findMessage r.1.1 messageId = None
  ∧ (∀ other, other ≠ messageId → findMessage r.1.1 other = findMessage d other)
  ∧ (∀ v, delete_message v messageId r.1.1
          = (r.1.1,
             match v with
             | Some _ => mkResponse 404 (b_error "Message not found")
             | None => mkResponse 401 (b_error "Unauthorized")
             end, []))
  ∧ (∀ v content now, blank content = false →
       edit_message (Some v) messageId content now r.1.1
       = (r.1.1, mkResponse 404 (b_error "Message not found"), [])).
Proof.
  intros Hm Hu r.
  assert (Hr : r = (with_messages (delete_where (has_id messageId)) d,
                    mkResponse 200 (b_text "Message deleted successfully"), [])).
  { subst r. unfold delete_message.
    by rewrite Hm, (bool_decide_eq_false_2 (m_senderId m ≠ u)) by (by intros H; apply H). }
  assert (Hgone : findMessage r.1.1 messageId = None).
  { rewrite Hr. apply find_delete_where. }
  split_and!.
  - by rewrite Hr.
  - exact Hgone.
  - intros other Hne. rewrite Hr. unfold findMessage. cbn [fst with_messages messages].
    apply find_delete_where_other. intros x. by apply has_id_other.
  - intros [v|]; unfold delete_message; [by rewrite Hgone | done].
  - intros v content now Hb. unfold edit_message. by rewrite Hb, Hgone.
Qed.

Lemma delete_by_sender_witness :
  findMessage (delete_message (Some "u1") "m1" Fixture.db0).1.1 "m1" = None.
Proof.
  eapply (delete_by_sender "u1" "m1" Fixture.db0 Fixture.m1); reflexivity.
Defined.

(** ** After creating a conversation *)



(** ** What marking as read touches *)

Section MarkReadScope.


End MarkReadScope.


(** ** Connecting and disconnecting *)

Section ConnectDisconnect.

Lemma set_isOnline_twice b b' t t' r :
  set_isOnline b' t' (set_isOnline b t r) = set_isOnline b' t' r.
Proof. reflexivity. Qed.

End ConnectDisconnect.

(** X18: a connection on a fresh socket id followed by the disconnect of
    that socket leaves the registry as it was, emits [user:online] and then
    [user:offline], and leaves the user's row offline with [lastSeen] at
    the time of the disconnect; the other tables are untouched. *)
Theorem connect_then_disconnect io st sk u t1 t2 :
  sockets st !! sk = None →
  let r := run io st [Connect sk (Some u) t1; Disconnect sk t2] in
  sockets r.1 = sockets st
  ∧ r.2 = [mkEmit ToAll (user_online u); mkEmit ToAll (user_offline u)]
  ∧ findUser (db r.1) u = set_isOnline false t2 <$> findUser (db st) u
  ∧ conversations (db r.1) = conversations (db st)
  ∧ conversationParticipants (db r.1) = conversationParticipants (db st)
  ∧ messages (db r.1) = messages (db st).
Proof.
  intros Hs r. subst r. cbn [run step]. unfold on_connection. rewrite Hs.
  cbn [fst snd]. unfold on_disconnect. cbn [sockets]. rewrite lookup_insert_eq.
  cbn [userId fst snd sockets db app].
  split_and!; try reflexivity.
  - by apply delete_insert_id.
  - rewrite !findUser_setPresence. by destruct (findUser (db st) u).
Qed.

Lemma connect_then_disconnect_witness :
  sockets (run false Fixture.live [Connect "E" (Some "u2") 20; Disconnect "E" 30]).1
  = sockets Fixture.live.
Proof.
  eapply (connect_then_disconnect false Fixture.live "E" "u2" 20 30).
  reflexivity.
Defined.

(** ** What the chat operations do to the users table *)

Section UsersTable.

Lemma profile_setPresence u b now d :
  profile <$> users (setPresence u b now d) = profile <$> users d.
Proof.
  unfold setPresence, update_where. cbn [with_users users].
  rewrite <- list_fmap_compose. apply list_fmap_ext.
  intros i r _. cbn. by destruct (bool_decide (u_id r = u)).
Qed.

Lemma step_profiles io st op :
  profile <$> users (db (step io st op).1) = profile <$> users (db st).
Proof.
  destruct op; cbn [step rest fst db].
  - unfold on_connection. destruct (sockets st !! sk); [done|].
    destruct uid; [apply profile_setPresence | done].
  - unfold on_conversation_join. destruct (sockets st !! sk) as [s|]; [|done].
    destruct (userId s) as [u|]; [|done].
    destruct (negb (is_uuid conversationId)); [done|].
    by destruct (findParticipant (db st) conversationId u).
  - unfold on_conversation_leave. by destruct (sockets st !! sk).
  - unfold on_message_send. destruct (sockets st !! sk) as [s|]; [|done].
    destruct (userId s) as [u|]; [|done]. destruct (blank content); [done|].
    by destruct (findParticipant (db st) conversationId u).
  - unfold on_typing. destruct (sockets st !! sk) as [s|]; [|done].
    by destruct (userId s).
  - unfold on_message_status. destruct (sockets st !! sk) as [s|]; [|done].
    destruct (userId s) as [u|]; [|done].
    by match goal with |- context [findMessage ?d ?m] => destruct (findMessage d m) end.
  - unfold on_disconnect. destruct (sockets st !! sk) as [s|]; [|done].
    destruct (userId s); [apply profile_setPresence | done].
  - unfold create_conversation. destruct uid; [|done].
    destruct participantIds as [[|? ?]|]; [done | | done].
    by case_bool_decide.
  - unfold send_message. destruct uid as [u|]; [|done].
    destruct (blank content); [done|].
    by destruct (findParticipant (db st) conversationId u).
  - unfold edit_message. destruct uid as [u|]; [|done].
    destruct (blank content); [done|].
    destruct (findMessage (db st) messageId) as [m|]; [|done].
    by destruct (bool_decide (m_senderId m ≠ u)).
  - unfold delete_message. destruct uid as [u|]; [|done].
    destruct (findMessage (db st) messageId) as [m|]; [|done].
    by destruct (bool_decide (m_senderId m ≠ u)).
  - by destruct uid.
Qed.

End UsersTable.

(** X19: no sequence of socket and REST chat operations adds, removes,
    reorders or re-identifies a user row: of a user row only [isOnline]
    and [lastSeen] ever change; id, email, username, avatar, [createdAt]
    and [updatedAt] stay as they were. *)
Theorem chat_keeps_user_profiles io ops : ∀ st,
  profile <$> users (db (run io st ops).1) = profile <$> users (db st).
Proof.
  induction ops as [|op ops IH]; intros st; [done|].
  cbn [run fst]. rewrite IH. apply step_profiles.
Qed.
